(** * Reaudit MCP server: authentication, token lifecycle and resilient requests

    A shallow embedding of
    - [src/lib/error-handler.ts]  (error classification, [withRetry]),
    - [src/auth/token-store.ts]   (the encrypted credentials file),
    - [src/auth/oauth-client.ts]  (token lifecycle, PKCE flow),
    - [src/lib/api-client.ts]     ([ReauditAPIClient.request]),
    - [src/lib/offline-mode.ts]   (the request queue and the offline cache),
    followed by the properties of the specification that concern them.

    Conventions.  JavaScript numbers that the code only uses as integers
    (epoch seconds, milliseconds, HTTP statuses, retry counts) are [Z];
    [NaN] is kept where the code can produce it.  The only floating-point
    computation, [calculateRetryDelay], is carried out over [Q].
    Asynchronous functions are state transformers over a [World]; what the
    outside decides (server responses, random draws, the browser's
    callbacks) is read from an [Env] of oracles.  [console.error] output
    is not modelled. *)

From Stdlib Require Import ZArith QArith Qround String Ascii List Bool Lia.
From Stdlib Require Import Strings.Byte DecimalString Lqa Qpower.
Import ListNotations.
Local Open Scope string_scope.
Local Open Scope Z_scope.

Set Implicit Arguments.

(* ================================================================== *)
(** ** JavaScript values shared by the modules *)

Module Js.

(** A number that may be [NaN]. *)
Inductive jsnum := NaN | Num (z : Z).

(** [if (s)] on a value of type [string | undefined]. *)
Definition truthy_str (s : option string) : bool :=
  match s with
  | Some (String _ _) => true
  | _ => false
  end.

(** [a || b] on [string | undefined]. *)
Definition or_str (a b : option string) : option string :=
  if truthy_str a then a else b.

(** [a || 'literal']. *)
Definition or_lit (a : option string) (b : string) : string :=
  match a with
  | Some (String c r) => String c r
  | _ => b
  end.

(** [if (n)] on a value of type [number | undefined]. *)
Definition truthy_num (n : option jsnum) : bool :=
  match n with
  | Some (Num z) => negb (z =? 0)
  | _ => false
  end.

Definition is_ws (c : ascii) : bool :=
  match nat_of_ascii c with
  | 9%nat | 10%nat | 11%nat | 12%nat | 13%nat | 32%nat => true
  | _ => false
  end.

Fixpoint skip_ws (s : string) : string :=
  match s with
  | String c r => if is_ws c then skip_ws r else s
  | EmptyString => s
  end.

Definition digit_val (c : ascii) : option Z :=
  let n := Z.of_nat (nat_of_ascii c) in
  if (48 <=? n) && (n <=? 57) then Some (n - 48)
  else if (97 <=? n) && (n <=? 122) then Some (n - 87)
  else if (65 <=? n) && (n <=? 90) then Some (n - 55)
  else None.

(** The longest prefix of digits below [radix], as a number. *)
Fixpoint digits (radix : Z) (s : string) (acc : option Z) : option Z :=
  match s with
  | String c r =>
      match digit_val c with
      | Some d =>
          if d <? radix
          then digits radix r (Some (match acc with
                                     | Some a => a * radix + d
                                     | None => d
                                     end))
          else acc
      | None => acc
      end
  | EmptyString => acc
  end.

(** [parseInt(s)] with no radix argument: leading white space, a sign, an
    optional [0x] prefix, then the longest run of digits; [NaN] when there
    is no digit.  (White space is the ASCII one.) *)
Definition parseInt (s : string) : jsnum :=
  let s1 := skip_ws s in
  let '(sign, s2) :=
    match s1 with
    | String "-"%char r => (-1, r)
    | String "+"%char r => (1, r)
    | _ => (1, s1)
    end in
  let '(radix, s3) :=
    match s2 with
    | String "0"%char (String "x"%char r) => (16, r)
    | String "0"%char (String "X"%char r) => (16, r)
    | _ => (10, s2)
    end in
  match digits radix s3 None with
  | Some n => Num (sign * n)
  | None => NaN
  end.

(** [`${n}`] for an integer. *)
Definition string_of_Z (z : Z) : string :=
  match z with
  | Z0 => "0"
  | Zpos p => NilEmpty.string_of_uint (Pos.to_uint p)
  | Zneg p => "-" ++ NilEmpty.string_of_uint (Pos.to_uint p)
  end.

(** What [throw] can carry.  [Axios] is an [AxiosError]: its [response] is
    absent when no response was received. *)
Record ErrData := {
  error_description : option string;
  data_message : option string;
  data_error : option string
}.

Record AxiosResponse := {
  status : Z;
  retry_after : option string;      (* headers['retry-after'] *)
  data : option ErrData
}.

Inductive JsError :=
| Axios (message : string) (response : option AxiosResponse)
| StdError (message : string)          (* any other [Error] instance *)
| Thrown (text : string).              (* a thrown non-Error, by its String() *)

(** The result of awaiting a promise: fulfilled, rejected, or never
    settled. *)
Inductive Outcome (A : Type) :=
| Return (a : A)
| Throw (e : JsError)
| Hang.
Arguments Return {A} a.
Arguments Throw {A} e.
Arguments Hang {A}.

End Js.
Export Js.

(* ================================================================== *)
(** ** The world the code runs in *)

Module Sys.

(** [StoredTokens] of token-store.ts. *)
Record StoredTokens := {
  accessToken : string;
  refreshToken : string;
  expiresAt : Z;                       (* Unix timestamp, seconds *)
  scope : string
}.

(** [TokenFile] of token-store.ts. *)
Record TokenFile := {
  version : Z;
  tokens : option StoredTokens;        (* [null] is [None] *)
  baseUrl : string
}.

(** The text of the credentials file, by what [JSON.parse] makes of it: a
    syntax error, or a value that the code reads at type [TokenFile].
    [JSON.stringify] of a [TokenFile] is a text that parses back to it. *)
Inductive FileText :=
| Unparsable
| Json (data : TokenFile).

(** [TokenResponse] of oauth-client.ts. *)
Record TokenResponse := {
  access_token : string;
  token_type : string;
  expires_in : Z;
  refresh_token : string;
  resp_scope : string
}.

(** The body of a POST to [/api/oauth/token]. *)
Inductive TokenRequest :=
| AuthorizationCode (code : option string) (code_verifier : string)
| RefreshGrant (refresh : string).

(** [APIResponse<T>] of api-client.ts, with [T] a JSON text. *)
Record APIResponse := {
  success : bool;
  payload : option string;             (* the field [data] *)
  api_error : option string;
  api_error_description : option string
}.

(** What an HTTP call comes back with: axios resolves with the body of a
    2xx response and rejects otherwise. *)
Inductive HttpResult (A : Type) :=
| Resolved (body : A)
| Rejected (e : JsError).
Arguments Resolved {A} body.
Arguments Rejected {A} e.

(** A request received by the local callback listener, as [url.parse]
    shows it, and the other things that can happen to one attempt. *)
Record Callback := {
  pathname : string;
  q_code : option string;
  q_state : option string;
  q_error : option string
}.

Inductive AuthEvent :=
| Request (req : Callback)             (* the listener receives a request *)
| ExchangeSettles                      (* the oldest pending token POST ends *)
| TimerFires.                          (* the 5 minute timer *)

(** What the code does not decide.  Oracles are indexed by how many times
    they were consulted before. *)
Record Env := {
  hostname : string;
  username : string;
  sha256 : string -> list byte;
  aes_encrypt : list byte -> list byte -> string -> list byte;
  aes_decrypt : list byte -> list byte -> list byte -> option string;
  base64url : list byte -> string;
  random_byte : nat -> nat -> byte;    (* crypto.randomBytes: call, position *)
  Math_random : nat -> Q;
  Date_getTime : string -> jsnum;      (* new Date(s).getTime() *)
  token_endpoint : nat -> Z * HttpResult TokenResponse;   (* elapsed ms, result *)
  api_endpoint : nat -> Z * HttpResult APIResponse;
  auth_script : nat -> list AuthEvent
}.

(** What the code reads and changes. *)
Record World := {
  clock : Z;                           (* Date.now(), milliseconds *)
  file : option FileText;              (* ~/.reaudit/credentials.json *)
  token_log : list TokenRequest;       (* POSTs sent to the token endpoint *)
  api_log : list string;               (* bearer token of each API request *)
  sleeps : list Z;                     (* delays awaited between retries *)
  random_draws : nat;                  (* calls of Math.random *)
  byte_draws : nat;                    (* calls of crypto.randomBytes *)
  auth_calls : nat                     (* calls of authenticate *)
}.

Definition set_clock (t : Z) (w : World) : World :=
  {| clock := t; file := file w; token_log := token_log w;
     api_log := api_log w; sleeps := sleeps w;
     random_draws := random_draws w; byte_draws := byte_draws w;
     auth_calls := auth_calls w |}.

Definition set_file (f : option FileText) (w : World) : World :=
  {| clock := clock w; file := f; token_log := token_log w;
     api_log := api_log w; sleeps := sleeps w;
     random_draws := random_draws w; byte_draws := byte_draws w;
     auth_calls := auth_calls w |}.

Definition set_token_log (l : list TokenRequest) (w : World) : World :=
  {| clock := clock w; file := file w; token_log := l;
     api_log := api_log w; sleeps := sleeps w;
     random_draws := random_draws w; byte_draws := byte_draws w;
     auth_calls := auth_calls w |}.

Definition set_api_log (l : list string) (w : World) : World :=
  {| clock := clock w; file := file w; token_log := token_log w;
     api_log := l; sleeps := sleeps w;
     random_draws := random_draws w; byte_draws := byte_draws w;
     auth_calls := auth_calls w |}.

Definition set_sleeps (l : list Z) (w : World) : World :=
  {| clock := clock w; file := file w; token_log := token_log w;
     api_log := api_log w; sleeps := l;
     random_draws := random_draws w; byte_draws := byte_draws w;
     auth_calls := auth_calls w |}.

Definition set_random_draws (n : nat) (w : World) : World :=
  {| clock := clock w; file := file w; token_log := token_log w;
     api_log := api_log w; sleeps := sleeps w;
     random_draws := n; byte_draws := byte_draws w;
     auth_calls := auth_calls w |}.

Definition set_byte_draws (n : nat) (w : World) : World :=
  {| clock := clock w; file := file w; token_log := token_log w;
     api_log := api_log w; sleeps := sleeps w;
     random_draws := random_draws w; byte_draws := n;
     auth_calls := auth_calls w |}.

Definition set_auth_calls (n : nat) (w : World) : World :=
  {| clock := clock w; file := file w; token_log := token_log w;
     api_log := api_log w; sleeps := sleeps w;
     random_draws := random_draws w; byte_draws := byte_draws w;
     auth_calls := n |}.

(** An asynchronous function. *)
Definition Async (A : Type) : Type := World -> Outcome A * World.

Definition ret {A} (a : A) : Async A := fun w => (Return a, w).
Definition throw {A} (e : JsError) : Async A := fun w => (Throw e, w).

Definition bind {A B} (m : Async A) (k : A -> Async B) : Async B :=
  fun w =>
    match m w with
    | (Return a, w1) => k a w1
    | (Throw e, w1) => (Throw e, w1)
    | (Hang, w1) => (Hang, w1)
    end.

(** [try { m } catch (error) { h(error) }]. *)
Definition try_catch {A} (m : Async A) (h : JsError -> Async A) : Async A :=
  fun w =>
    match m w with
    | (Throw e, w1) => h e w1
    | r => r
    end.

(** [await new Promise(resolve => setTimeout(resolve, delay))]: a negative
    delay is served at once. *)
Definition sleep (delay : Z) : Async unit :=
  fun w => (Return tt,
            set_clock (clock w + Z.max 0 delay) (set_sleeps (sleeps w ++ [delay]) w)).

(** [Math.random()]. *)
Definition random (env : Env) (w : World) : Q * World :=
  (Math_random env (random_draws w), set_random_draws (S (random_draws w)) w).

(** [crypto.randomBytes(n)]. *)
Definition randomBytes (env : Env) (n : nat) (w : World) : list byte * World :=
  (map (random_byte env (byte_draws w)) (seq 0 n),
   set_byte_draws (S (byte_draws w)) w).

End Sys.
Export Sys.

Declare Scope async_scope.
Delimit Scope async_scope with async.
Notation "x <- m ;; k" := (bind m (fun x => k))
  (at level 61, m at next level, right associativity) : async_scope.

(* ================================================================== *)
(** ** lib/error-handler.ts *)

Module ErrorHandler.

Inductive ErrorCategory :=
| AUTHENTICATION | AUTHORIZATION | RATE_LIMIT | NOT_FOUND
| VALIDATION | SERVER | NETWORK | UNKNOWN.

Definition category_eqb (a b : ErrorCategory) : bool :=
  match a, b with
  | AUTHENTICATION, AUTHENTICATION | AUTHORIZATION, AUTHORIZATION
  | RATE_LIMIT, RATE_LIMIT | NOT_FOUND, NOT_FOUND
  | VALIDATION, VALIDATION | SERVER, SERVER
  | NETWORK, NETWORK | UNKNOWN, UNKNOWN => true
  | _, _ => false
  end.

(** [Array.prototype.includes] on categories. *)
Definition includes (l : list ErrorCategory) (c : ErrorCategory) : bool :=
  existsb (category_eqb c) l.

Record MCPError := {
  category : ErrorCategory;
  message : string;
  userMessage : string;
  suggestion : option string;
  retryable : bool;
  retryAfter : option jsnum;           (* seconds *)
  originalError : option JsError
}.

Definition categorizeHttpError (status : Z) : ErrorCategory :=
  match status with
  | 401 => AUTHENTICATION
  | 403 => AUTHORIZATION
  | 404 => NOT_FOUND
  | 422 | 400 => VALIDATION
  | 429 => RATE_LIMIT
  | 500 | 502 | 503 | 504 => SERVER
  | _ => UNKNOWN
  end.

Definition getUserMessage (c : ErrorCategory) (details : option string) : string :=
  match c with
  | AUTHENTICATION =>
      "Your session has expired. Please re-authenticate with Reaudit."
  | AUTHORIZATION =>
      or_lit details "You don't have permission to perform this action. Check your subscription tier."
  | RATE_LIMIT =>
      "You've reached your usage limit. Please wait before trying again or upgrade your plan."
  | NOT_FOUND =>
      or_lit details "The requested resource was not found. It may have been deleted or you may not have access."
  | VALIDATION =>
      or_lit details "Invalid request. Please check your input and try again."
  | SERVER =>
      "Reaudit is experiencing issues. Please try again in a few minutes."
  | NETWORK =>
      "Unable to connect to Reaudit. Please check your internet connection."
  | UNKNOWN =>
      "An unexpected error occurred. Please try again."
  end.

Definition getSuggestion (c : ErrorCategory) : option string :=
  match c with
  | AUTHENTICATION =>
      Some "Delete ~/.reaudit/credentials.json and restart to re-authenticate."
  | AUTHORIZATION =>
      Some "Visit https://reaudit.io/settings to check your subscription."
  | RATE_LIMIT =>
      Some "Use get_usage_summary to check your current limits."
  | NOT_FOUND =>
      Some "Use list_projects or list_audits to find valid IDs."
  | SERVER =>
      Some "Check https://status.reaudit.io for service status."
  | NETWORK =>
      Some "Verify you can access https://reaudit.io in your browser."
  | _ => None
  end.

Definition isRetryable (c : ErrorCategory) : bool :=
  includes [RATE_LIMIT; SERVER; NETWORK] c.

(** [Math.ceil(ms / 1000)] on an integer number of milliseconds. *)
Definition ceil_seconds (ms : Z) : Z := - ((- ms) / 1000).

(** The local [retryAfter] of [parseError], before the default is put in:
    the retry-after header read as seconds, or as a date turned into
    seconds from [now]. *)
Definition readRetryAfter (env : Env) (now : Z) (c : ErrorCategory)
    (retryHeader : option string) : option jsnum :=
  match c with
  | RATE_LIMIT =>
      match retryHeader with
      | Some (String a r) =>
          let h := String a r in
          match parseInt h with
          | Num parsed => Some (Num parsed)
          | NaN =>
              match Date_getTime env h with
              | Num t => Some (Num (ceil_seconds (t - now)))
              | NaN => Some NaN
              end
          end
      | _ => None
      end
  | _ => None
  end.

Definition apiMessageOf (d : option ErrData) : option string :=
  match d with
  | Some d => or_str (error_description d) (or_str (data_message d) (data_error d))
  | None => None
  end.

(** [parseError(error)], evaluated when [Date.now()] is [now]. *)
Definition parseError (env : Env) (now : Z) (error : JsError) : MCPError :=
  match error with
  | Axios msg None =>
      {| category := NETWORK;
         message := msg;
         userMessage := getUserMessage NETWORK None;
         suggestion := getSuggestion NETWORK;
         retryable := true;
         retryAfter := Some (Num 5);
         originalError := Some error |}
  | Axios msg (Some response) =>
      let c := categorizeHttpError
                 (if status response =? 0 then 500 else status response) in
      let apiMessage := apiMessageOf (data response) in
      let retryAfter0 := readRetryAfter env now c (retry_after response) in
      {| category := c;
         message := or_lit apiMessage msg;
         userMessage := getUserMessage c apiMessage;
         suggestion := getSuggestion c;
         retryable := isRetryable c;
         retryAfter := if truthy_num retryAfter0 then retryAfter0
                       else if isRetryable c then Some (Num 30) else None;
         originalError := Some error |}
  | StdError msg =>
      {| category := UNKNOWN;
         message := msg;
         userMessage := getUserMessage UNKNOWN None;
         suggestion := None;
         retryable := false;
         retryAfter := None;
         originalError := Some error |}
  | Thrown text =>
      {| category := UNKNOWN;
         message := text;
         userMessage := getUserMessage UNKNOWN None;
         suggestion := None;
         retryable := false;
         retryAfter := None;
         originalError := None |}
  end.

Definition num_text (n : option jsnum) : string :=
  match n with
  | Some (Num z) => string_of_Z z
  | Some NaN => "NaN"
  | None => "undefined"
  end.

Definition formatErrorForUser (error : MCPError) : string :=
  let message1 := "**Error:** " ++ userMessage error in
  let message2 :=
    if truthy_str (suggestion error)
    then message1 ++ String "010" (String "010" "**Suggestion:** ")
                  ++ or_lit (suggestion error) EmptyString
    else message1 in
  if retryable error && truthy_num (retryAfter error)
  then message2 ++ String "010" (String "010" "*This error may be temporary. Try again in ")
                ++ num_text (retryAfter error) ++ " seconds.*"
  else message2.

Record RetryConfig := {
  maxRetries : Z;
  baseDelay : Z;                       (* ms *)
  maxDelay : Z;                        (* ms *)
  retryableCategories : list ErrorCategory
}.

(** [Partial<RetryConfig>]. *)
Record PartialRetryConfig := {
  p_maxRetries : option Z;
  p_baseDelay : option Z;
  p_maxDelay : option Z;
  p_retryableCategories : option (list ErrorCategory)
}.

Definition no_override : PartialRetryConfig :=
  {| p_maxRetries := None; p_baseDelay := None; p_maxDelay := None;
     p_retryableCategories := None |}.

Definition DEFAULT_RETRY_CONFIG : RetryConfig :=
  {| maxRetries := 3;
     baseDelay := 1000;
     maxDelay := 30000;
     retryableCategories := [RATE_LIMIT; SERVER; NETWORK] |}.

(** [{ ...DEFAULT_RETRY_CONFIG, ...config }]. *)
Definition merge (config : PartialRetryConfig) : RetryConfig :=
  let pick {A} (o : option A) (d : A) := match o with Some a => a | None => d end in
  {| maxRetries := pick (p_maxRetries config) (maxRetries DEFAULT_RETRY_CONFIG);
     baseDelay := pick (p_baseDelay config) (baseDelay DEFAULT_RETRY_CONFIG);
     maxDelay := pick (p_maxDelay config) (maxDelay DEFAULT_RETRY_CONFIG);
     retryableCategories :=
       pick (p_retryableCategories config)
            (retryableCategories DEFAULT_RETRY_CONFIG) |}.

(** [Math.round]. *)
Definition Math_round (x : Q) : Z := Qfloor (x + (1 # 2))%Q.

(** [Math.min] on two numbers. *)
Definition Math_min (a b : Q) : Q := if Qle_bool a b then a else b.

(** [calculateRetryDelay(attempt, config)], with [rnd] the value that
    [Math.random()] returns.  [Math.pow(2, attempt)] is a fraction when
    [attempt] is negative.  The arithmetic is exact: a double computation
    can round the last digit differently. *)
Definition calculateRetryDelay (attempt : Z) (config : RetryConfig) (rnd : Q) : Z :=
  let delay := Math_min (inject_Z (baseDelay config) * Qpower 2 attempt)%Q
                        (inject_Z (maxDelay config)) in
  let jitter := (delay * (2 # 10) * (rnd - (5 # 10)))%Q in
  Math_round (delay + jitter)%Q.

(** The [delay] that [withRetry] waits for after a failure classified as
    [lastError]; [Math.random] is drawn only on the backoff branch. *)
Definition retryDelay (env : Env) (attempt : Z) (config : RetryConfig)
    (lastError : MCPError) (w : World) : Z * World :=
  match retryAfter lastError with
  | Some (Num s) =>
      if s =? 0
      then let (rnd, w1) := random env w in
           (calculateRetryDelay attempt config rnd, w1)
      else (s * 1000, w)
  | _ => let (rnd, w1) := random env w in
         (calculateRetryDelay attempt config rnd, w1)
  end.

(** The test under which [withRetry] rethrows instead of waiting. *)
Definition givesUp (config : RetryConfig) (attempt : Z) (lastError : MCPError) : bool :=
  negb (retryable lastError)
  || negb (includes (retryableCategories config) (category lastError))
  || (attempt =? maxRetries config).

Section WithRetry.
Variable env : Env.
Variable T : Type.
Variable fn : Async T.
Variable fullConfig : RetryConfig.

(** The [for] loop of [withRetry], from [attempt] on, with [fuel] the
    number of iterations left before [attempt <= maxRetries] fails.  The
    third component lists what each call of [fn] came back with, in
    order. *)
Fixpoint retry_loop (fuel : nat) (attempt : Z) (lastError : option MCPError)
    (w : World) : Outcome T * World * list (Outcome T) :=
  match fuel with
  | O =>
      let substitute := StdError "Retry failed" in
      (Throw (match lastError with
              | Some le => match originalError le with
                           | Some e => e
                           | None => substitute
                           end
              | None => substitute
              end), w, [])
  | S fuel' =>
      match fn w with
      | (Return v, w1) => (Return v, w1, [Return v])
      | (Hang, w1) => (Hang, w1, [Hang])
      | (Throw error, w1) =>
          let le := parseError env (clock w1) error in
          if givesUp fullConfig attempt le
          then (Throw error, w1, [Throw error])
          else
            let (delay, w2) := retryDelay env attempt fullConfig le w1 in
            let w3 := snd (sleep delay w2) in
            let '(r, w4, calls) :=
              retry_loop fuel' (attempt + 1) (Some le) w3 in
            (r, w4, Throw error :: calls)
      end
  end.
End WithRetry.

(** [withRetry(fn, config)], with the calls of [fn] it made. *)
Definition withRetry_counted (env : Env) {T} (fn : Async T)
    (config : PartialRetryConfig) (w : World)
    : Outcome T * World * list (Outcome T) :=
  let fullConfig := merge config in
  retry_loop env fn fullConfig (Z.to_nat (maxRetries fullConfig + 1)) 0 None w.

Definition withRetry (env : Env) {T} (fn : Async T)
    (config : PartialRetryConfig) : Async T :=
  fun w => fst (withRetry_counted env fn config w).

End ErrorHandler.

(* ================================================================== *)
(** ** auth/token-store.ts *)

Module TokenStore.

Definition FILE_VERSION : Z := 1.

(** *** Hexadecimal text, as [Buffer] writes and reads it *)

Definition hex_char (d : N) : ascii :=
  ascii_of_N (if (d <? 10)%N then 48 + d else 87 + d).

(** [buf.toString('hex')]. *)
Fixpoint hex_encode (bs : list byte) : string :=
  match bs with
  | [] => EmptyString
  | b :: r =>
      let n := Byte.to_N b in
      String (hex_char (n / 16)) (String (hex_char (n mod 16)) (hex_encode r))
  end.

Definition hex_val (c : ascii) : option N :=
  match digit_val c with
  | Some d => if d <? 16 then Some (Z.to_N d) else None
  | None => None
  end.

(** [Buffer.from(s, 'hex')]: pairs of digits, up to the first pair that is
    not hexadecimal; a last single character is dropped. *)
Fixpoint hex_decode (s : string) : list byte :=
  match s with
  | String a (String b r) =>
      match hex_val a, hex_val b with
      | Some h, Some l =>
          match Byte.of_N (h * 16 + l) with
          | Some x => x :: hex_decode r
          | None => []
          end
      | _, _ => []
      end
  | _ => []
  end.

(** [s.split(sep)] for a one-character separator. *)
Fixpoint split (sep : ascii) (s : string) : list string :=
  match s with
  | EmptyString => [EmptyString]
  | String c r =>
      if Ascii.eqb c sep then EmptyString :: split sep r
      else match split sep r with
           | seg :: segs => String c seg :: segs
           | [] => [String c EmptyString]
           end
  end.

(** *** The cipher *)

(** [getEncryptionKey()]. *)
Definition getEncryptionKey (env : Env) : list byte :=
  sha256 env (hostname env ++ username env).

(** [encrypt(text)]. *)
Definition encrypt (env : Env) (text : string) (w : World) : string * World :=
  let key := getEncryptionKey env in
  let (iv, w1) := randomBytes env 16 w in
  let encrypted := hex_encode (aes_encrypt env key iv text) in
  (hex_encode iv ++ ":" ++ encrypted, w1).

(** [decrypt(text)]; [None] when it throws: no second field to decipher, an
    initialisation vector that is not 16 bytes long, or a failure of the
    cipher itself. *)
Definition decrypt (env : Env) (text : string) : option string :=
  let key := getEncryptionKey env in
  match split ":" text with
  | ivHex :: encrypted :: _ =>
      let iv := hex_decode ivHex in
      if (length iv =? 16)%nat
      then aes_decrypt env key iv (hex_decode encrypted)
      else None
  | _ => None
  end.

(** *** The store of one base URL *)

Section Store.
Variable env : Env.
Variable this_baseUrl : string.

(** [saveTokens(tokens)]. *)
Definition saveTokens (t : StoredTokens) (w : World) : World :=
  let (a, w1) := encrypt env (accessToken t) w in
  let (r, w2) := encrypt env (refreshToken t) w1 in
  let data :=
    {| version := FILE_VERSION;
       tokens := Some {| accessToken := a;
                         refreshToken := r;
                         expiresAt := expiresAt t;
                         scope := scope t |};
       baseUrl := this_baseUrl |} in
  set_file (Some (Json data)) w2.

(** [loadTokens()]: every exception of the body ends in [return null]. *)
Definition loadTokens (w : World) : option StoredTokens :=
  match file w with
  | None => None
  | Some Unparsable => None
  | Some (Json data) =>
      if negb (version data =? FILE_VERSION)
         || negb (String.eqb (baseUrl data) this_baseUrl)
      then None
      else
        match tokens data with
        | None => None
        | Some t =>
            match decrypt env (accessToken t) with
            | None => None
            | Some a =>
                match decrypt env (refreshToken t) with
                | None => None
                | Some r =>
                    Some {| accessToken := a;
                            refreshToken := r;
                            expiresAt := expiresAt t;
                            scope := scope t |}
                end
            end
        end
  end.

(** [clearTokens()]. *)
Definition clearTokens (w : World) : World := set_file None w.

(** [isAccessTokenExpired()]. *)
Definition isAccessTokenExpired (w : World) : bool :=
  match loadTokens w with
  | None => true
  | Some t =>
      let bufferMs := 5 * 60 * 1000 in
      clock w >=? expiresAt t * 1000 - bufferMs
  end.
End Store.

End TokenStore.

(* ================================================================== *)
(** ** auth/oauth-client.ts *)

Module OAuthClient.
Import TokenStore.

(** The constants of one call of [authenticate]. *)
Record Attempt := {
  codeVerifier : string;
  state : string
}.

(** The local callback server and the promise of one attempt.  [promise]
    is [Hang] until [resolve] or [reject] is first called. *)
Record Listener := {
  listening : bool;
  close_calls : nat;                   (* calls of server.close() *)
  promise : Outcome string;
  pending : list nat;                  (* token POSTs awaited, by index *)
  timer_armed : bool;
  replies : list Z                     (* statuses written to callbacks *)
}.

Definition started : Listener :=
  {| listening := true; close_calls := 0; promise := Hang;
     pending := []; timer_armed := true; replies := [] |}.

(** [res.writeHead(status, ...); res.end(...)]. *)
Definition reply (status : Z) (l : Listener) : Listener :=
  {| listening := listening l; close_calls := close_calls l;
     promise := promise l; pending := pending l;
     timer_armed := timer_armed l; replies := replies l ++ [status] |}.

(** [server.close()]. *)
Definition close (l : Listener) : Listener :=
  {| listening := false; close_calls := S (close_calls l);
     promise := promise l; pending := pending l;
     timer_armed := timer_armed l; replies := replies l |}.

(** [resolve(v)] or [reject(e)]: only the first call settles the promise. *)
Definition settle (r : Outcome string) (l : Listener) : Listener :=
  match promise l with
  | Hang =>
      {| listening := listening l; close_calls := close_calls l;
         promise := r; pending := pending l;
         timer_armed := timer_armed l; replies := replies l |}
  | _ => l
  end.

Definition set_pending (p : list nat) (l : Listener) : Listener :=
  {| listening := listening l; close_calls := close_calls l;
     promise := promise l; pending := p;
     timer_armed := timer_armed l; replies := replies l |}.

Definition disarm (l : Listener) : Listener :=
  {| listening := listening l; close_calls := close_calls l;
     promise := promise l; pending := pending l;
     timer_armed := false; replies := replies l |}.

(** [returnedState !== state]. *)
Definition state_differs (returnedState : option string) (st : string) : bool :=
  match returnedState with
  | Some s => negb (String.eqb s st)
  | None => true
  end.

Section Client.
Variable env : Env.
Variable this_baseUrl : string.

(** The record that [authenticate] and [refreshToken] save from a token
    response received when [Date.now()] is [now]. *)
Definition recordOf (now : Z) (t : TokenResponse) : StoredTokens :=
  {| accessToken := access_token t;
     refreshToken := refresh_token t;
     expiresAt := now / 1000 + expires_in t;
     scope := resp_scope t |}.

(** [refreshToken(refreshToken)]. *)
Definition refreshToken (rt : string) : Async TokenResponse :=
  fun w =>
    let k := length (token_log w) in
    let w1 := set_token_log (token_log w ++ [RefreshGrant rt]) w in
    let (elapsed, result) := token_endpoint env k in
    let w2 := set_clock (clock w1 + elapsed) w1 in
    match result with
    | Rejected e => (Throw e, w2)
    | Resolved response =>
        (Return response,
         saveTokens env this_baseUrl (recordOf (clock w2) response) w2)
    end.

(** The request handler of [authenticate], up to its [await]. *)
Definition on_request (att : Attempt) (req : Callback)
    (s : Listener * World) : Listener * World :=
  let (l, w) := s in
  if String.eqb (pathname req) "/callback" then
    if truthy_str (q_error req) then
      (settle (Throw (StdError ("OAuth error: " ++ or_lit (q_error req) EmptyString)))
              (close (reply 400 l)), w)
    else if state_differs (q_state req) (state att) then
      (settle (Throw (StdError "State mismatch")) (close (reply 400 l)), w)
    else
      (* exchangeCode(code, codeVerifier) is sent and awaited *)
      (set_pending (pending l ++ [length (token_log w)]) l,
       set_token_log
         (token_log w ++ [AuthorizationCode (q_code req) (codeVerifier att)]) w)
  else (l, w).

(** The rest of the handler, once [exchangeCode] has settled. *)
Definition on_exchange_settled (s : Listener * World) : Listener * World :=
  let (l, w) := s in
  match pending l with
  | [] => (l, w)
  | k :: rest =>
      let l1 := set_pending rest l in
      let (elapsed, result) := token_endpoint env k in
      let w1 := set_clock (clock w + elapsed) w in
      match result with
      | Resolved tokens =>
          let w2 := saveTokens env this_baseUrl (recordOf (clock w1) tokens) w1 in
          (settle (Return (access_token tokens)) (close (reply 200 l1)), w2)
      | Rejected err =>
          (settle (Throw err) (close (reply 500 l1)), w1)
      end
  end.

(** The callback of [setTimeout(..., 5 * 60 * 1000)]. *)
Definition on_timeout (s : Listener * World) : Listener * World :=
  let (l, w) := s in
  if timer_armed l then
    (settle (Throw (StdError "Authentication timeout")) (close (disarm l)), w)
  else (l, w).

Definition auth_step (att : Attempt) (ev : AuthEvent)
    (s : Listener * World) : Listener * World :=
  match ev with
  | Request req => on_request att req s
  | ExchangeSettles => on_exchange_settled s
  | TimerFires => on_timeout s
  end.

(** Everything that happens to one attempt. *)
Definition auth_run (att : Attempt) (evs : list AuthEvent)
    (s : Listener * World) : Listener * World :=
  fold_left (fun s ev => auth_step att ev s) evs s.

(** The events up to the one that settles the promise. *)
Fixpoint run_until_settled (att : Attempt) (evs : list AuthEvent)
    (s : Listener * World) : Listener * World :=
  match promise (fst s), evs with
  | Hang, ev :: r => run_until_settled att r (auth_step att ev s)
  | _, _ => s
  end.

(** [authenticate()], as its caller sees it: the promise it returns, when
    the outside behaves as the script of this call says. *)
Definition authenticate : Async string :=
  fun w =>
    let (verifier, w1) := randomBytes env 32 w in
    let (nonce, w2) := randomBytes env 16 w1 in
    let att := {| codeVerifier := base64url env verifier;
                  state := hex_encode nonce |} in
    let script := auth_script env (auth_calls w2) in
    let w3 := set_auth_calls (S (auth_calls w2)) w2 in
    let (l, w4) := run_until_settled att script (started, w3) in
    (promise l, w4).

(** [getAccessToken()]. *)
Definition getAccessToken : Async string :=
  fun w =>
    match loadTokens env this_baseUrl w with
    | Some tokens =>
        if negb (isAccessTokenExpired env this_baseUrl w)
        then (Return (accessToken tokens), w)
        else
          match refreshToken (Sys.refreshToken tokens) w with
          | (Return newTokens, w1) => (Return (access_token newTokens), w1)
          | (Throw _, w1) => authenticate (clearTokens w1)
          | (Hang, w1) => (Hang, w1)
          end
    | None => authenticate w
    end.
(** [isAuthenticated()]. *)
Definition isAuthenticated (w : World) : bool :=
  match loadTokens env this_baseUrl w with
  | Some _ => true
  | None => false
  end.

(** [logout()], given what the revoke endpoint answers to this call (the
    time it takes, and its result).  The third component lists the tokens
    posted to [/api/oauth/revoke]. *)
Definition logout (revoke : Z * HttpResult unit) (w : World)
    : Outcome unit * World * list string :=
  match loadTokens env this_baseUrl w with
  | Some tokens =>
      let w1 := set_clock (clock w + fst revoke) w in
      match snd revoke with
      | Resolved _ => (Return tt, clearTokens w1, [Sys.refreshToken tokens])
      | Rejected _ =>
          (* Ignore errors during revocation *)
          (Return tt, clearTokens w1, [Sys.refreshToken tokens])
      end
  | None => (Return tt, clearTokens w, [])
  end.
End Client.

End OAuthClient.

(* ================================================================== *)
(** ** lib/api-client.ts *)

Module ApiClient.
Import ErrorHandler OAuthClient.
Local Open Scope async_scope.

Section Facade.
Variable env : Env.
Variable this_baseUrl : string.

(** [this.httpClient.request({..., headers: { Authorization }})]. *)
Definition http (bearer : string) : Async APIResponse :=
  fun w =>
    let k := length (api_log w) in
    let w1 := set_api_log (api_log w ++ [bearer]) w in
    let (elapsed, result) := api_endpoint env k in
    let w2 := set_clock (clock w1 + elapsed) w1 in
    match result with
    | Resolved body => (Return body, w2)
    | Rejected e => (Throw e, w2)
    end.

(** [error.response?.status === 401]. *)
Definition is401 (response : option AxiosResponse) : bool :=
  match response with
  | Some r => status r =? 401
  | None => false
  end.

(** The handler of the [catch] inside [request]. *)
Definition on_failure (error : JsError) : Async (option string) :=
  match error with
  | Axios _ response =>
      if is401 response then
        newToken <- getAccessToken env this_baseUrl ;;
        retryResponse <- http newToken ;;
        if negb (success retryResponse)
        then throw (StdError (or_lit (api_error_description retryResponse)
                                     "API request failed"))
        else ret (payload retryResponse)
      else
        fun w =>
          let parsedError := parseError env (clock w) error in
          throw (StdError (formatErrorForUser parsedError)) w
  | _ => throw error
  end.

(** The function that [request] hands to [withRetry]. *)
Definition attempt : Async (option string) :=
  accessToken <- getAccessToken env this_baseUrl ;;
  try_catch
    (response <- http accessToken ;;
     if negb (success response)
     then throw (StdError (or_lit (or_str (api_error_description response)
                                          (api_error response))
                                  "API request failed"))
     else ret (payload response))
    on_failure.

(** [request(method, path, data, params)]: the method, the path and the
    payload are the same in every call it makes and are left out. *)
Definition request_counted (w : World)
    : Outcome (option string) * World * list (Outcome (option string)) :=
  withRetry_counted env attempt no_override w.

Definition request : Async (option string) :=
  withRetry env attempt no_override.
End Facade.

End ApiClient.

(* ================================================================== *)
(** ** lib/offline-mode.ts

    The module keeps its state in top-level variables; here they are the
    fields of [State].  The files it reads and writes are a map from paths
    to texts, a text being what [JSON.parse] makes of it.  Status callbacks
    are functions on the state; they are kept beside it. *)

Module OfflineMode.

Inductive ConnectionStatus := ONLINE | OFFLINE | DEGRADED.

Definition status_eqb (a b : ConnectionStatus) : bool :=
  match a, b with
  | ONLINE, ONLINE | OFFLINE, OFFLINE | DEGRADED, DEGRADED => true
  | _, _ => false
  end.

Record QueuedRequest := {
  id : string;
  method : string;
  path : string;
  data : option string;
  params : option (list (string * string));
  queuedAt : Z;
  retryCount : Z;
  maxRetries : Z
}.

Record OfflineConfig := {
  queuePath : string;
  maxQueueSize : nat;
  cfg_maxRetries : Z;
  checkInterval : Z                    (* ms *)
}.

(** [path.join(os.homedir(), '.reaudit', 'request-queue.json')]. *)
Definition DEFAULT_CONFIG (home : string) : OfflineConfig :=
  {| queuePath := home ++ "/.reaudit/request-queue.json";
     maxQueueSize := 100;
     cfg_maxRetries := 5;
     checkInterval := 30000 |}.

Inductive QueueText :=
| BadText
| QueueJson (q : list QueuedRequest).

Record State := {
  currentStatus : ConnectionStatus;
  lastOnlineCheck : Z;
  requestQueue : list QueuedRequest;
  checkTimer : option Z;               (* the interval of the running timer *)
  disk : string -> option QueueText;
  writable : bool                      (* whether fs.writeFileSync succeeds *)
}.

Definition initial (d : string -> option QueueText) (ok : bool) : State :=
  {| currentStatus := ONLINE; lastOnlineCheck := 0; requestQueue := [];
     checkTimer := None; disk := d; writable := ok |}.

Definition set_queue (q : list QueuedRequest) (s : State) : State :=
  {| currentStatus := currentStatus s; lastOnlineCheck := lastOnlineCheck s;
     requestQueue := q; checkTimer := checkTimer s;
     disk := disk s; writable := writable s |}.

Definition set_disk (d : string -> option QueueText) (s : State) : State :=
  {| currentStatus := currentStatus s; lastOnlineCheck := lastOnlineCheck s;
     requestQueue := requestQueue s; checkTimer := checkTimer s;
     disk := d; writable := writable s |}.

Definition set_timer (t : option Z) (s : State) : State :=
  {| currentStatus := currentStatus s; lastOnlineCheck := lastOnlineCheck s;
     requestQueue := requestQueue s; checkTimer := t;
     disk := disk s; writable := writable s |}.

Definition set_status (c : ConnectionStatus) (now : Z) (s : State) : State :=
  {| currentStatus := c; lastOnlineCheck := now;
     requestQueue := requestQueue s; checkTimer := checkTimer s;
     disk := disk s; writable := writable s |}.

(** [loadQueue(queuePath)]. *)
Definition loadQueue (queuePath : string) (s : State) : State :=
  match disk s queuePath with
  | None => s
  | Some (QueueJson q) => set_queue q s
  | Some BadText => set_queue [] s
  end.

(** [saveQueue(queuePath)]: a failure to write is logged and dropped. *)
Definition saveQueue (queuePath : string) (s : State) : State :=
  if writable s
  then set_disk (fun p => if String.eqb p queuePath
                          then Some (QueueJson (requestQueue s))
                          else disk s p) s
  else s.

(** [initOfflineMode(config)], with [config] already merged over the
    defaults. *)
Definition initOfflineMode (fullConfig : OfflineConfig) (s : State) : State :=
  set_timer (Some (checkInterval fullConfig)) (loadQueue (queuePath fullConfig) s).

Definition stopOfflineMode (s : State) : State :=
  match checkTimer s with
  | Some _ => set_timer None s
  | None => s
  end.

Definition getConnectionStatus (s : State) : ConnectionStatus := currentStatus s.

Definition isOnline (s : State) : bool := status_eqb (currentStatus s) ONLINE.

(** [requestQueue.findIndex(r => r.id === requestId)] and
    [requestQueue.splice(index, 1)] in one pass: the queue without its
    first request of that id, when there is one. *)
Fixpoint remove_first (requestId : string) (q : list QueuedRequest)
    : option (list QueuedRequest) :=
  match q with
  | [] => None
  | r :: rest =>
      if String.eqb (id r) requestId then Some rest
      else match remove_first requestId rest with
           | Some rest' => Some (r :: rest')
           | None => None
           end
  end.

Section WithHome.
Variable home : string.

(** [queueRequest(method, path, data, params)]: [now] and [later] are what
    its two calls of [Date.now()] return, and [suffix] is
    [Math.random().toString(36).substring(2, 9)]. *)
Definition queueRequest (now later : Z) (suffix : string)
    (m p : string) (d : option string) (ps : option (list (string * string)))
    (s : State) : string * State :=
  let id := "req_" ++ string_of_Z now ++ "_" ++ suffix in
  let request :=
    {| id := id; method := m; path := p; data := d; params := ps;
       queuedAt := later; retryCount := 0;
       maxRetries := cfg_maxRetries (DEFAULT_CONFIG home) |} in
  let pushed := (requestQueue s ++ [request])%list in
  let q := if (maxQueueSize (DEFAULT_CONFIG home) <? length pushed)%nat
           then tl pushed
           else pushed in
  (id, saveQueue (queuePath (DEFAULT_CONFIG home)) (set_queue q s)).

Definition getQueuedRequests (s : State) : list QueuedRequest := requestQueue s.

Definition getQueueSize (s : State) : nat := length (requestQueue s).

Definition clearQueue (s : State) : State :=
  saveQueue (queuePath (DEFAULT_CONFIG home)) (set_queue [] s).

Definition removeFromQueue (requestId : string) (s : State) : bool * State :=
  match remove_first requestId (requestQueue s) with
  | Some q => (true, saveQueue (queuePath (DEFAULT_CONFIG home)) (set_queue q s))
  | None => (false, s)
  end.

Definition opt_eqb {A} (eqb : A -> A -> bool) (a b : option A) : bool :=
  match a, b with
  | Some x, Some y => eqb x y
  | None, None => true
  | _, _ => false
  end.

Fixpoint list_eqb {A} (eqb : A -> A -> bool) (a b : list A) : bool :=
  match a, b with
  | [], [] => true
  | x :: a', y :: b' => eqb x y && list_eqb eqb a' b'
  | _, _ => false
  end.

(** Two requests that agree on every field. *)
Definition same_request (a b : QueuedRequest) : bool :=
  String.eqb (id a) (id b) && String.eqb (method a) (method b)
  && String.eqb (path a) (path b) && opt_eqb String.eqb (data a) (data b)
  && opt_eqb (list_eqb (fun x y => String.eqb (fst x) (fst y)
                                   && String.eqb (snd x) (snd y)))
             (params a) (params b)
  && (queuedAt a =? queuedAt b) && (retryCount a =? retryCount b)
  && (maxRetries a =? maxRetries b).

(** [request.retryCount++] on a request taken from a copy of the queue:
    the object is shared with the queue, which sees the new count.  The
    object is found in the queue as its first request with the same
    fields. *)
Fixpoint bump (request : QueuedRequest) (q : list QueuedRequest)
    : list QueuedRequest :=
  match q with
  | [] => []
  | r :: rest =>
      if same_request r request
      then {| id := id r; method := method r; path := path r; data := data r;
              params := params r; queuedAt := queuedAt r;
              retryCount := retryCount r + 1; maxRetries := maxRetries r |}
           :: rest
      else r :: bump request rest
  end.

(** The [for] loop of [processQueue].  [removeFromQueue] does not throw, so
    the [catch] of the loop body is never entered. *)
Fixpoint process_each (toProcess : list QueuedRequest) (s : State) : State :=
  match toProcess with
  | [] => s
  | request :: rest =>
      if negb (status_eqb (currentStatus s) ONLINE) then s
      else
        let s1 := set_queue (bump request (requestQueue s)) s in
        process_each rest (snd (removeFromQueue (id request) s1))
  end.

(** [processQueue()]: it has no [await] and runs to its end when called. *)
Definition processQueue (s : State) : State :=
  match requestQueue s with
  | [] => s
  | _ => process_each (requestQueue s) s
  end.

(** A status callback; what it throws is caught. *)
Definition StatusCallback : Type := ConnectionStatus -> State -> State.

Definition onStatusChange (callback : StatusCallback)
    (h : State * list StatusCallback) : State * list StatusCallback :=
  (fst h, (snd h ++ [callback])%list).

(** [setConnectionStatus(status)], called when [Date.now()] is [now]. *)
Definition setConnectionStatus (now : Z) (status : ConnectionStatus)
    (h : State * list StatusCallback) : State * list StatusCallback :=
  let (s, statusCallbacks) := h in
  if negb (status_eqb status (currentStatus s)) then
    let s1 := set_status status now s in
    let s2 := fold_left (fun st callback => callback status st) statusCallbacks s1 in
    (if status_eqb status ONLINE then processQueue s2 else s2, statusCallbacks)
  else h.
End WithHome.

(** *** The cache for offline use: a [Map] from keys to [CachedData] *)

Record CachedData := {
  key : string;
  cached : string;                     (* the field [data] *)
  cachedAt : Z;
  c_expiresAt : Z
}.

Definition Cache : Type := list (string * CachedData).

(** [Map.prototype.get]. *)
Fixpoint cache_get (k : string) (c : Cache) : option CachedData :=
  match c with
  | [] => None
  | (k', v) :: rest => if String.eqb k' k then Some v else cache_get k rest
  end.

(** [Map.prototype.delete]. *)
Fixpoint cache_delete (k : string) (c : Cache) : Cache :=
  match c with
  | [] => []
  | (k', v) :: rest =>
      if String.eqb k' k then cache_delete k rest else (k', v) :: cache_delete k rest
  end.

(** [Map.prototype.set]: the entry of a key already there is replaced where
    it is. *)
Fixpoint cache_set (k : string) (v : CachedData) (c : Cache) : Cache :=
  match c with
  | [] => [(k, v)]
  | (k', v') :: rest =>
      if String.eqb k' k then (k', v) :: rest else (k', v') :: cache_set k v rest
  end.

(** [cacheForOffline(key, data, ttlMs)], called when [Date.now()] is
    [now]. *)
Definition cacheForOffline (now : Z) (k : string) (d : string) (ttlMs : Z)
    (c : Cache) : Cache :=
  cache_set k {| key := k; cached := d; cachedAt := now;
                 c_expiresAt := now + ttlMs |} c.

(** The default of [ttlMs]. *)
Definition DEFAULT_TTL : Z := 3600000.

(** [getOfflineCache(key)], called when [Date.now()] is [now]. *)
Definition getOfflineCache (now : Z) (k : string) (c : Cache)
    : option string * Cache :=
  match cache_get k c with
  | None => (None, c)
  | Some entry =>
      if now >? c_expiresAt entry
      then (None, cache_delete k c)
      else (Some (cached entry), c)
  end.

Definition clearOfflineCache (c : Cache) : Cache := [].

End OfflineMode.

(* ================================================================== *)
(** ** A small concrete environment

    Used to run the code on explicit inputs.  The stand-in cipher tags the
    text with the first byte of the key and refuses a text tagged
    otherwise; the stand-in digest is the text itself. *)

Module Scenario.
Import ErrorHandler TokenStore OAuthClient ApiClient.

Definition tag (key : list byte) : byte := hd x00 key.

Definition toy_encrypt (key iv : list byte) (text : string) : list byte :=
  tag key :: list_byte_of_string text.

Definition toy_decrypt (key iv ct : list byte) : option string :=
  match ct with
  | c :: r => if Byte.eqb c (tag key) then Some (string_of_list_byte r) else None
  | [] => None
  end.

Definition mk_env (host : string)
    (token_ep : nat -> Z * HttpResult TokenResponse)
    (api_ep : nat -> Z * HttpResult APIResponse)
    (script : nat -> list AuthEvent) : Env :=
  {| hostname := host;
     username := "rose";
     sha256 := list_byte_of_string;
     aes_encrypt := toy_encrypt;
     aes_decrypt := toy_decrypt;
     base64url := hex_encode;
     random_byte := fun call pos => x2a;
     Math_random := fun _ => (1 # 2)%Q;
     Date_getTime := fun _ => NaN;
     token_endpoint := token_ep;
     api_endpoint := api_ep;
     auth_script := script |}.

Definition site : string := "https://reaudit.io".

Definition blank : World :=
  {| clock := 1700000; file := None; token_log := []; api_log := [];
     sleeps := []; random_draws := 0; byte_draws := 0; auth_calls := 0 |}.

Definition status_only (s : Z) : JsError :=
  Axios "Request failed" (Some {| status := s; retry_after := None; data := None |}).

Definition no_tokens : nat -> Z * HttpResult TokenResponse :=
  fun _ => (0, Rejected (Axios "Network Error" None)).

Definition no_api : nat -> Z * HttpResult APIResponse :=
  fun _ => (0, Rejected (Axios "Network Error" None)).

Definition no_script : nat -> list AuthEvent := fun _ => [].

(** A machine with nothing to answer. *)
Definition quiet : Env := mk_env "laptop" no_tokens no_api no_script.

(** A record that expires at second 2000. *)
Definition sample : StoredTokens :=
  {| accessToken := "AT-1"; Sys.refreshToken := "RT-1";
     expiresAt := 2000; scope := "full_access" |}.

Definition fresh_response : TokenResponse :=
  {| access_token := "AT-2"; token_type := "Bearer"; expires_in := 3600;
     refresh_token := "RT-2"; resp_scope := "full_access" |}.

(** The world after [sample] was saved, at millisecond 1700000. *)
Definition with_sample : World := saveTokens quiet site sample blank.

End Scenario.

(* ================================================================== *)
(** ** What is asked of the platform's cipher *)

(** Deciphering, with the same key and initialisation vector, what was
    enciphered gives the text back. *)
Definition cipher_sound (env : Env) : Prop :=
  forall key iv text,
    length iv = 16%nat ->
    aes_decrypt env key iv (aes_encrypt env key iv text) = Some text.


(** An operation that fails, every time, with an error the policy
    retries. *)
Definition always_retryable (env : Env) {T : Type} (fn : Async T)
    (cfg : ErrorHandler.RetryConfig) : Prop :=
  forall w, exists e w1,
    fn w = (Throw e, w1)
    /\ ErrorHandler.retryable (ErrorHandler.parseError env (clock w1) e) = true
    /\ ErrorHandler.includes (ErrorHandler.retryableCategories cfg)
         (ErrorHandler.category (ErrorHandler.parseError env (clock w1) e)) = true.

(** From [w] to [w'], at most [n] API requests were sent and nothing was
    waited for. *)
Definition sends_at_most (n : nat) (w w' : World) : Prop :=
  exists extra,
    api_log w' = (api_log w ++ extra)%list
    /\ (length extra <= n)%nat
    /\ sleeps w' = sleeps w.

(** [s] has no occurrence of [c]. *)
Fixpoint lacks (c : ascii) (s : string) : bool :=
  match s with
  | EmptyString => true
  | String a r => negb (Ascii.eqb a c) && lacks c r
  end.

(** The number of refresh grants among the requests sent to the token
    endpoint. *)
Definition refreshes (l : list TokenRequest) : nat :=
  length (filter (fun q => match q with RefreshGrant _ => true | _ => false end) l).

(* ================================================================== *)
(** * Properties *)

Unset Implicit Arguments.

(** ** The retry executor *)

Section RetryFacts.
Import ErrorHandler.
Variable env : Env.
Variable T : Type.
Variable fn : Async T.
Variable cfg : RetryConfig.

(** As long as the loop is entered with the budget it still has, it ends
    on the outcome of the last call it made, and makes no more calls than
    it has iterations left. *)
Lemma retry_loop_spec (fuel : nat) :
  forall attempt lastError w r w' calls,
    attempt + Z.of_nat fuel = maxRetries cfg + 1 ->
    (0 < fuel)%nat ->
    retry_loop env fn cfg fuel attempt lastError w = (r, w', calls) ->
    (length calls <= fuel)%nat /\ calls <> [] /\ last calls Hang = r.
Proof.
  induction fuel as [|fuel IH]; intros attempt lastError w r w' calls Hb Hpos Hrun.
  - lia.
  - cbn [retry_loop] in Hrun.
    destruct (fn w) as [[v|error|] w1] eqn:Hfn.
    + inversion Hrun; subst. repeat split; [simpl; lia | discriminate].
    + destruct (givesUp cfg attempt (parseError env (clock w1) error)) eqn:Hg.
      * inversion Hrun; subst. repeat split; [simpl; lia | discriminate].
      * destruct (retryDelay env attempt cfg (parseError env (clock w1) error) w1)
          as [delay w2].
        destruct (retry_loop env fn cfg fuel (attempt + 1)
                    (Some (parseError env (clock w1) error))
                    (snd (sleep delay w2))) as [[r0 w4] calls0] eqn:Hrec.
        inversion Hrun; subst.
        assert (Hne : attempt <> maxRetries cfg).
        { unfold givesUp in Hg.
          apply orb_false_iff in Hg as [_ Hg].
          apply Z.eqb_neq in Hg. exact Hg. }
        assert (Hf : (0 < fuel)%nat) by lia.
        assert (Hb' : attempt + 1 + Z.of_nat fuel = maxRetries cfg + 1) by lia.
        destruct (IH _ _ _ _ _ _ Hb' Hf Hrec) as [Hlen [Hnil Hlast]].
        repeat split.
        -- simpl. lia.
        -- discriminate.
        -- destruct calls0 as [|c cs]; [congruence|]. exact Hlast.
    + inversion Hrun; subst. repeat split; [simpl; lia | discriminate].
Qed.

(** A first failure whose category the policy does not retry ends the
    loop. *)
Lemma retry_loop_not_listed (fuel : nat) attempt lastError w e w1 :
  fn w = (Throw e, w1) ->
  includes (retryableCategories cfg)
           (category (parseError env (clock w1) e)) = false ->
  retry_loop env fn cfg (S fuel) attempt lastError w = (Throw e, w1, [Throw e]).
Proof.
  intros Hfn Hcat. simpl. rewrite Hfn.
  unfold givesUp. rewrite Hcat. simpl.
  rewrite orb_true_r. reflexivity.
Qed.

(** With a negative [maxRetries] the loop body never runs: [fn] is not
    called and the substitute error of the last line is thrown. *)
Lemma retry_loop_no_budget attempt w :
  retry_loop env fn cfg 0 attempt None w = (Throw (StdError "Retry failed"), w, []).
Proof. reflexivity. Qed.
End RetryFacts.

(** [parseError] on a plain [Error]: category Unknown, not retryable. *)
Lemma parseError_plain env now msg :
  ErrorHandler.category (ErrorHandler.parseError env now (StdError msg)) = ErrorHandler.UNKNOWN
  /\ ErrorHandler.retryable (ErrorHandler.parseError env now (StdError msg)) = false.
Proof. split; reflexivity. Qed.

Lemma merge_maxRetries (config : ErrorHandler.PartialRetryConfig) :
  ErrorHandler.maxRetries (ErrorHandler.merge config)
  = match ErrorHandler.p_maxRetries config with Some n => n | None => 3 end.
Proof. destruct config as [[n|] ? ? ?]; reflexivity. Qed.

Lemma merge_retryableCategories (config : ErrorHandler.PartialRetryConfig) :
  ErrorHandler.retryableCategories (ErrorHandler.merge config)
  = match ErrorHandler.p_retryableCategories config with
    | Some l => l
    | None => [ErrorHandler.RATE_LIMIT; ErrorHandler.SERVER; ErrorHandler.NETWORK]
    end.
Proof. destruct config as [? ? ? [l|]]; reflexivity. Qed.

(** C1, as the code has it.  Let [N] be the [maxRetries] the caller gave
    (3 when the caller gave none) and [cats] the retryable set the caller
    gave (RateLimit, Server, Network when none).  When [N >= 0],
    [withRetry] calls the operation at least once and at most [N + 1]
    times; it calls it exactly once when the category of the first failure
    is not in [cats]; and its result is the outcome of the last call: when
    the last call threw, that very failure is what [withRetry] throws. *)
Theorem withRetry_budget_and_rethrow
    (env : Env) (T : Type) (fn : Async T)
    (config : ErrorHandler.PartialRetryConfig) (w : World)
    (r : Outcome T) (w' : World) (calls : list (Outcome T)) :
  let N := match ErrorHandler.p_maxRetries config with Some n => n | None => 3 end in
  let cats := match ErrorHandler.p_retryableCategories config with
              | Some l => l
              | None => [ErrorHandler.RATE_LIMIT; ErrorHandler.SERVER; ErrorHandler.NETWORK]
              end in
  0 <= N ->
  ErrorHandler.withRetry_counted env fn config w = (r, w', calls) ->
  Z.of_nat (length calls) <= N + 1
  /\ (forall e w1,
        fn w = (Throw e, w1) ->
        ErrorHandler.includes cats
          (ErrorHandler.category (ErrorHandler.parseError env (clock w1) e)) = false ->
        calls = [Throw e] /\ r = Throw e /\ w' = w1)
  /\ calls <> []
  /\ last calls Hang = r
  /\ (forall e, last calls Hang = Throw e -> r = Throw e).
Proof.
  intros N cats Hn Hrun. subst N cats.
  rewrite <- merge_maxRetries in *. rewrite <- merge_retryableCategories.
  unfold ErrorHandler.withRetry_counted in Hrun.
  set (cfg := ErrorHandler.merge config) in *.
  assert (Hfuel : (0 < Z.to_nat (ErrorHandler.maxRetries cfg + 1))%nat) by lia.
  assert (Hb : 0 + Z.of_nat (Z.to_nat (ErrorHandler.maxRetries cfg + 1))
               = ErrorHandler.maxRetries cfg + 1) by lia.
  destruct (retry_loop_spec env T fn cfg _ 0 None w r w' calls Hb Hfuel Hrun)
    as [Hlen [Hnil Hlast]].
  split; [lia|]. split; [|split; [exact Hnil|split; [exact Hlast|]]].
  - intros e w1 Hfn Hcat.
    destruct (Z.to_nat (ErrorHandler.maxRetries cfg + 1)) as [|fuel] eqn:Hf; [lia|].
    rewrite (retry_loop_not_listed env T fn cfg fuel 0 None w e w1 Hfn Hcat) in Hrun.
    inversion Hrun; subst. repeat split.
  - intros e He. rewrite <- Hlast. exact He.
Qed.

(** The caller asks for one retry; the operation answers 503, 503, then
    would succeed: two calls, and the second 503 is what is thrown. *)
Lemma withRetry_budget_and_rethrow_witness :
  let fn : Async nat := fun w =>
    if (length (sleeps w) <? 2)%nat
    then (Throw (Scenario.status_only 503), w)
    else (Return 7%nat, w) in
  let once := {| ErrorHandler.p_maxRetries := Some 1;
                 ErrorHandler.p_baseDelay := None;
                 ErrorHandler.p_maxDelay := None;
                 ErrorHandler.p_retryableCategories := None |} in
  exists w' calls,
    ErrorHandler.withRetry_counted Scenario.quiet fn once Scenario.blank
      = (Throw (Scenario.status_only 503), w', calls)
    /\ Z.of_nat (length calls) <= 1 + 1
    /\ last calls Hang = Throw (Scenario.status_only 503)
    /\ sleeps w' = [30000].
Proof.
  intros fn once.
  destruct (ErrorHandler.withRetry_counted Scenario.quiet fn once Scenario.blank)
    as [[r w'] calls] eqn:Hrun.
  pose proof (withRetry_budget_and_rethrow Scenario.quiet nat fn once Scenario.blank
                r w' calls ltac:(cbn; lia) Hrun) as (Hlen & _ & _ & Hlast & _).
  revert Hlen Hlast. vm_compute in Hrun. inversion Hrun; subst. intros Hlen Hlast.
  eexists _, _. split; [reflexivity|]. split; [exact Hlen|].
  split; [exact Hlast | reflexivity].
Defined.

(** C1, as stated, fails for a negative [maxRetries]: the loop body never
    runs, the operation is not called, and the last line of [withRetry]
    throws its substitute error.  With [maxRetries = -3] the number of
    calls, 0, is more than [N + 1]. *)
Lemma withRetry_negative_budget_counterexample :
  let fn : Async unit := fun w => (Throw (Scenario.status_only 400), w) in
  let budget n := {| ErrorHandler.p_maxRetries := Some n;
                     ErrorHandler.p_baseDelay := None;
                     ErrorHandler.p_maxDelay := None;
                     ErrorHandler.p_retryableCategories := None |} in
  ErrorHandler.withRetry_counted Scenario.quiet fn (budget (-1)) Scenario.blank
    = (Throw (StdError "Retry failed"), Scenario.blank, [])
  /\ ErrorHandler.withRetry_counted Scenario.quiet fn (budget (-3)) Scenario.blank
     = (Throw (StdError "Retry failed"), Scenario.blank, [])
  /\ ~ (Z.of_nat (length (@nil (Outcome unit))) <= -3 + 1)
  /\ StdError "Retry failed" <> Scenario.status_only 400.
Proof.
  cbv zeta. split; [reflexivity|]. split; [reflexivity|].
  split; [cbn; lia | discriminate].
Qed.

(** ** The classifier and the wait between retries *)

Section ClassifierFacts.
Import ErrorHandler.
Variable env : Env.

Lemma categorize_429 : categorizeHttpError 429 = RATE_LIMIT.
Proof. reflexivity. Qed.

(** When the classified error carries a non-zero [retryAfter], that is
    what [withRetry] waits, in milliseconds, and [Math.random] is not
    drawn. *)
Lemma retryDelay_explicit attempt config le w s :
  retryAfter le = Some (Num s) -> s <> 0 ->
  retryDelay env attempt config le w = (s * 1000, w).
Proof.
  intros Hra Hs. unfold retryDelay. rewrite Hra.
  apply Z.eqb_neq in Hs. rewrite Hs. reflexivity.
Qed.

(** Every failure that [parseError] marks retryable has a non-zero
    [retryAfter]: the backoff branch of [retryDelay] is not reached for
    it. *)
Lemma retryable_has_retryAfter now e :
  retryable (parseError env now e) = true ->
  exists s, retryAfter (parseError env now e) = Some (Num s) /\ s <> 0.
Proof.
  destruct e as [msg [resp|]|msg|text]; simpl; try discriminate.
  - intros Hr. rewrite Hr.
    destruct (truthy_num (readRetryAfter env now
                (categorizeHttpError (if status resp =? 0 then 500 else status resp))
                (retry_after resp))) eqn:Ht.
    + unfold truthy_num in Ht.
      destruct (readRetryAfter env now _ (retry_after resp)) as [[|s]|];
        try discriminate.
      exists s. split; [reflexivity|].
      apply negb_true_iff, Z.eqb_neq in Ht. exact Ht.
    + exists 30. split; [reflexivity|lia].
  - intros _. exists 5. split; [reflexivity|lia].
Qed.
End ClassifierFacts.

(** C4, as the code has it.  For a 429 failure, when there is no
    retry-after header the classifier puts in 30 seconds and the executor
    waits 30000 ms whatever the attempt and the policy; when the header
    reads as a non-zero number of seconds, or as a date a non-zero number
    of seconds away, that number is kept and the executor waits it in
    milliseconds. *)
Theorem rate_limit_wait
    (env : Env) (now : Z) (msg : string) (resp : AxiosResponse) :
  status resp = 429 ->
  let le := ErrorHandler.parseError env now (Axios msg (Some resp)) in
  ErrorHandler.category le = ErrorHandler.RATE_LIMIT
  /\ (truthy_str (retry_after resp) = false ->
        ErrorHandler.retryAfter le = Some (Num 30)
        /\ forall attempt config w,
             ErrorHandler.retryDelay env attempt config le w = (30000, w))
  /\ (forall h n,
        retry_after resp = Some h -> h <> EmptyString ->
        parseInt h = Num n -> n <> 0 ->
        ErrorHandler.retryAfter le = Some (Num n)
        /\ forall attempt config w,
             ErrorHandler.retryDelay env attempt config le w = (n * 1000, w))
  /\ (forall h t,
        retry_after resp = Some h -> h <> EmptyString ->
        parseInt h = NaN -> Date_getTime env h = Num t ->
        ErrorHandler.ceil_seconds (t - now) <> 0 ->
        ErrorHandler.retryAfter le = Some (Num (ErrorHandler.ceil_seconds (t - now)))
        /\ forall attempt config w,
             ErrorHandler.retryDelay env attempt config le w
             = (ErrorHandler.ceil_seconds (t - now) * 1000, w)).
Proof.
  intros Hs le. subst le.
  unfold ErrorHandler.retryDelay, ErrorHandler.parseError.
  cbn [ErrorHandler.category ErrorHandler.retryAfter].
  rewrite Hs. change (429 =? 0) with false. cbv iota.
  change (ErrorHandler.categorizeHttpError 429) with ErrorHandler.RATE_LIMIT.
  change (ErrorHandler.isRetryable ErrorHandler.RATE_LIMIT) with true. cbv iota.
  split; [reflexivity|]. split; [|split].
  - intros Hh.
    assert (Hra : ErrorHandler.readRetryAfter env now ErrorHandler.RATE_LIMIT
                    (retry_after resp) = None).
    { unfold ErrorHandler.readRetryAfter.
      destruct (retry_after resp) as [[|a r]|]; try reflexivity.
      discriminate Hh. }
    rewrite Hra. cbn [truthy_num]. split; [reflexivity|].
    intros attempt config w. reflexivity.
  - intros h n Hh Hne Hp Hn.
    assert (Hra : ErrorHandler.readRetryAfter env now ErrorHandler.RATE_LIMIT
                    (retry_after resp) = Some (Num n)).
    { unfold ErrorHandler.readRetryAfter. rewrite Hh.
      destruct h as [|a r]; [congruence|]. rewrite Hp. reflexivity. }
    rewrite Hra. cbn [truthy_num].
    apply Z.eqb_neq in Hn. rewrite Hn. cbn [negb]. split; [reflexivity|].
    intros attempt config w. rewrite Hn. reflexivity.
  - intros h t Hh Hne Hp Hd Hn.
    assert (Hra : ErrorHandler.readRetryAfter env now ErrorHandler.RATE_LIMIT
                    (retry_after resp)
                  = Some (Num (ErrorHandler.ceil_seconds (t - now)))).
    { unfold ErrorHandler.readRetryAfter. rewrite Hh.
      destruct h as [|a r]; [congruence|]. rewrite Hp, Hd. reflexivity. }
    rewrite Hra. cbn [truthy_num].
    apply Z.eqb_neq in Hn. rewrite Hn. cbn [negb]. split; [reflexivity|].
    intros attempt config w. rewrite Hn. reflexivity.
Qed.

Lemma rate_limit_wait_witness :
  let resp := {| status := 429; retry_after := Some "120"; data := None |} in
  let le := ErrorHandler.parseError Scenario.quiet 0 (Axios "Too Many Requests" (Some resp)) in
  ErrorHandler.retryAfter le = Some (Num 120)
  /\ ErrorHandler.retryDelay Scenario.quiet 2 ErrorHandler.DEFAULT_RETRY_CONFIG le Scenario.blank
     = (120000, Scenario.blank).
Proof.
  intros resp le.
  destruct (rate_limit_wait Scenario.quiet 0 "Too Many Requests" resp eq_refl)
    as [_ [_ [H _]]].
  destruct (H "120" 120 eq_refl ltac:(discriminate) eq_refl ltac:(lia)) as [Ha Hd].
  split; [exact Ha | apply Hd].
Defined.

(** C4, as stated, fails: a 429 without a retry-after header is classified
    with [retryAfter = 30], and under the default policy the executor waits
    30000 ms before each of its three retries, where the backoff of attempt
    0 would be 1000 ms.  A header that reads as 0 seconds is replaced by the
    same 30 seconds. *)
Lemma rate_limit_default_counterexample :
  let e := Scenario.status_only 429 in
  let le := ErrorHandler.parseError Scenario.quiet 1700000 e in
  let zero := Axios "Request failed"
                (Some {| status := 429; retry_after := Some "0"; data := None |}) in
  ErrorHandler.retryAfter le = Some (Num 30)
  /\ ErrorHandler.retryAfter le <> None
  /\ (exists w',
        ErrorHandler.withRetry_counted Scenario.quiet
          (fun w => (@Throw unit e, w)) ErrorHandler.no_override Scenario.blank
        = (Throw e, w', [Throw e; Throw e; Throw e; Throw e])
        /\ sleeps w' = [30000; 30000; 30000]
        /\ random_draws w' = 0%nat)
  /\ ErrorHandler.calculateRetryDelay 0 ErrorHandler.DEFAULT_RETRY_CONFIG (1 # 2) = 1000
  /\ ErrorHandler.retryAfter (ErrorHandler.parseError Scenario.quiet 1700000 zero)
     = Some (Num 30).
Proof.
  repeat split; try discriminate.
  eexists. vm_compute. repeat split.
Qed.

(** ** The token store *)

Section HexFacts.
Import TokenStore.

Lemma hex_decode_byte (b : byte) (r : string) :
  hex_decode (String (hex_char (Byte.to_N b / 16))
                (String (hex_char (Byte.to_N b mod 16)) r))
  = b :: hex_decode r.
Proof. destruct b; reflexivity. Qed.

Lemma hex_decode_encode (bs : list byte) : hex_decode (hex_encode bs) = bs.
Proof.
  induction bs as [|b bs IH]; [reflexivity|].
  cbn [hex_encode]. rewrite hex_decode_byte, IH. reflexivity.
Qed.

Lemma hex_char_not_colon (b : byte) :
  Ascii.eqb (hex_char (Byte.to_N b / 16)) ":" = false
  /\ Ascii.eqb (hex_char (Byte.to_N b mod 16)) ":" = false.
Proof. destruct b; split; reflexivity. Qed.

Lemma hex_encode_lacks_colon (bs : list byte) : lacks ":" (hex_encode bs) = true.
Proof.
  induction bs as [|b bs IH]; [reflexivity|].
  cbn [hex_encode lacks].
  destruct (hex_char_not_colon b) as [H1 H2].
  rewrite H1, H2, IH. reflexivity.
Qed.

Lemma split_whole (sep : ascii) (s : string) :
  lacks sep s = true -> split sep s = [s].
Proof.
  induction s as [|a r IH]; [reflexivity|].
  cbn [lacks split]. intros H. apply andb_true_iff in H as [Ha Hr].
  apply negb_true_iff in Ha. rewrite Ha, (IH Hr). reflexivity.
Qed.

Lemma split_first (sep : ascii) (a b : string) :
  lacks sep a = true ->
  split sep (a ++ String sep b) = a :: split sep b.
Proof.
  induction a as [|c r IH]; intros H.
  - cbn [append split]. rewrite Ascii.eqb_refl. reflexivity.
  - cbn [lacks] in H. apply andb_true_iff in H as [Hc Hr].
    apply negb_true_iff in Hc.
    cbn [append split]. rewrite Hc, (IH Hr). reflexivity.
Qed.
End HexFacts.

Section StoreFacts.
Import TokenStore.
Variable env : Env.
Variable base : string.

Lemma randomBytes_length n w : length (fst (randomBytes env n w)) = n.
Proof. unfold randomBytes. cbn [fst]. rewrite length_map, length_seq. reflexivity. Qed.

(** What [encrypt] writes, [decrypt] reads back. *)
Lemma decrypt_encrypt text w :
  cipher_sound env -> decrypt env (fst (encrypt env text w)) = Some text.
Proof.
  intros Hc. unfold encrypt.
  pose proof (randomBytes_length 16 w) as Hlen.
  destruct (randomBytes env 16 w) as [iv w1]. cbn [fst] in *.
  unfold decrypt.
  change (hex_encode iv ++ ":" ++ hex_encode (aes_encrypt env (getEncryptionKey env) iv text))
    with (hex_encode iv ++ String ":" (hex_encode (aes_encrypt env (getEncryptionKey env) iv text))).
  rewrite split_first by apply hex_encode_lacks_colon.
  rewrite split_whole by apply hex_encode_lacks_colon.
  rewrite !hex_decode_encode, Hlen. cbn [Nat.eqb].
  apply Hc. exact Hlen.
Qed.

Lemma file_saveTokens t w :
  exists a r w2,
    encrypt env (accessToken t) w = (a, snd (encrypt env (accessToken t) w))
    /\ encrypt env (Sys.refreshToken t) (snd (encrypt env (accessToken t) w)) = (r, w2)
    /\ saveTokens env base t w
       = set_file (Some (Json {| version := FILE_VERSION;
                                 tokens := Some {| accessToken := a;
                                                   Sys.refreshToken := r;
                                                   expiresAt := expiresAt t;
                                                   scope := scope t |};
                                 baseUrl := base |})) w2.
Proof.
  unfold saveTokens.
  destruct (encrypt env (accessToken t) w) as [a w1] eqn:Ha.
  destruct (encrypt env (Sys.refreshToken t) w1) as [r w2] eqn:Hr.
  exists a, r, w2. cbn [snd]. rewrite Hr. repeat split.
Qed.

Lemma load_after_save t w :
  cipher_sound env -> loadTokens env base (saveTokens env base t w) = Some t.
Proof.
  intros Hc.
  destruct (file_saveTokens t w) as (a & r & w2 & Ha & Hr & Hs).
  rewrite Hs. unfold loadTokens. cbn [file set_file version baseUrl tokens].
  change (FILE_VERSION =? FILE_VERSION) with true.
  rewrite String.eqb_refl. cbn [negb orb accessToken Sys.refreshToken expiresAt scope].
  pose proof (decrypt_encrypt (accessToken t) w Hc) as Da.
  rewrite Ha in Da. cbn [fst] in Da. rewrite Da.
  pose proof (decrypt_encrypt (Sys.refreshToken t)
                (snd (encrypt env (accessToken t) w)) Hc) as Dr.
  rewrite Hr in Dr. cbn [fst] in Dr. rewrite Dr.
  destruct t; reflexivity.
Qed.
End StoreFacts.

Lemma toy_cipher_sound host tk api sc :
  cipher_sound (Scenario.mk_env host tk api sc).
Proof.
  intros key iv text _. cbn [aes_decrypt aes_encrypt Scenario.mk_env].
  unfold Scenario.toy_decrypt, Scenario.toy_encrypt.
  destruct (Byte.eqb (Scenario.tag key) (Scenario.tag key)) eqn:E.
  - rewrite string_of_list_byte_of_string. reflexivity.
  - exfalso. destruct (Scenario.tag key); discriminate E.
Qed.

(** C7.  A record saved and then loaded by a store of the same base URL, on
    the same machine, comes back equal in every field. *)
Theorem save_then_load
    (env : Env) (base : string) (t : StoredTokens) (w : World) :
  cipher_sound env ->
  TokenStore.loadTokens env base (TokenStore.saveTokens env base t w) = Some t.
Proof. intros Hc. apply load_after_save. exact Hc. Qed.

Lemma save_then_load_witness :
  TokenStore.loadTokens Scenario.quiet Scenario.site
    (TokenStore.saveTokens Scenario.quiet Scenario.site Scenario.sample Scenario.blank)
  = Some Scenario.sample.
Proof.
  apply (save_then_load Scenario.quiet Scenario.site Scenario.sample Scenario.blank).
  apply toy_cipher_sound.
Defined.

(** C8.  [loadTokens] is a total function into [StoredTokens | null], and
    it returns [null] when the file is missing, when its text does not
    parse, when the version is not 1, when the base URL is not the store's,
    when [tokens] is [null], and when either field fails to decrypt. *)
Theorem load_degenerate (env : Env) (base : string) (w : World) :
  (file w = None -> TokenStore.loadTokens env base w = None)
  /\ (file w = Some Unparsable -> TokenStore.loadTokens env base w = None)
  /\ (forall d, file w = Some (Json d) ->
        version d <> TokenStore.FILE_VERSION ->
        TokenStore.loadTokens env base w = None)
  /\ (forall d, file w = Some (Json d) ->
        baseUrl d <> base ->
        TokenStore.loadTokens env base w = None)
  /\ (forall d, file w = Some (Json d) ->
        tokens d = None ->
        TokenStore.loadTokens env base w = None)
  /\ (forall d t, file w = Some (Json d) ->
        tokens d = Some t ->
        TokenStore.decrypt env (accessToken t) = None
        \/ TokenStore.decrypt env (Sys.refreshToken t) = None ->
        TokenStore.loadTokens env base w = None).
Proof.
  unfold TokenStore.loadTokens.
  repeat split.
  - intros H. rewrite H. reflexivity.
  - intros H. rewrite H. reflexivity.
  - intros d H Hv. rewrite H.
    apply Z.eqb_neq in Hv. rewrite Hv. reflexivity.
  - intros d H Hb. rewrite H.
    apply String.eqb_neq in Hb. rewrite Hb.
    rewrite orb_true_r. reflexivity.
  - intros d H Ht. rewrite H, Ht.
    destruct (negb _ || negb _); reflexivity.
  - intros d t H Ht Hd. rewrite H, Ht.
    destruct (negb _ || negb _); [reflexivity|].
    destruct Hd as [Hd|Hd].
    + rewrite Hd. reflexivity.
    + rewrite Hd. destruct (TokenStore.decrypt env (accessToken t)); reflexivity.
Qed.

(** The file that [Scenario.sample] was saved in on the machine [laptop]
    does not load on the machine [desktop]. *)
Lemma load_degenerate_witness :
  let other := Scenario.mk_env "desktop" Scenario.no_tokens Scenario.no_api
                 Scenario.no_script in
  TokenStore.loadTokens other Scenario.site Scenario.with_sample = None
  /\ TokenStore.loadTokens Scenario.quiet "https://staging.reaudit.io"
       Scenario.with_sample = None
  /\ TokenStore.loadTokens Scenario.quiet Scenario.site Scenario.blank = None
  /\ TokenStore.loadTokens Scenario.quiet Scenario.site
       (set_file (Some Unparsable) Scenario.blank) = None.
Proof.
  intro other.
  pose (d := {| version := 1;
                tokens := Some {| accessToken := "2a2a2a2a2a2a2a2a2a2a2a2a2a2a2a2a:6c41542d31";
                                  Sys.refreshToken := "2a2a2a2a2a2a2a2a2a2a2a2a2a2a2a2a:6c52542d31";
                                  expiresAt := 2000;
                                  scope := "full_access" |};
                baseUrl := Scenario.site |}).
  assert (Hf : file Scenario.with_sample = Some (Json d)) by reflexivity.
  refine (conj _ (conj _ (conj _ _))).
  - destruct (load_degenerate other Scenario.site Scenario.with_sample)
      as (_ & _ & _ & _ & _ & H).
    apply (H d _ Hf eq_refl). left. reflexivity.
  - destruct (load_degenerate Scenario.quiet "https://staging.reaudit.io"
                Scenario.with_sample) as (_ & _ & _ & H & _).
    apply (H d Hf). discriminate.
  - destruct (load_degenerate Scenario.quiet Scenario.site Scenario.blank)
      as (H & _).
    apply H. reflexivity.
  - destruct (load_degenerate Scenario.quiet Scenario.site
                (set_file (Some Unparsable) Scenario.blank)) as (_ & H & _).
    apply H. reflexivity.
Defined.

(** C9, as the code has it.  [isAccessTokenExpired] is true when no record
    loads, and otherwise exactly when [expiresAt], in milliseconds, is at
    most 300000 ms after [Date.now()]: the boundary is expired. *)
Theorem expired_iff (env : Env) (base : string) (w : World) :
  (TokenStore.loadTokens env base w = None ->
     TokenStore.isAccessTokenExpired env base w = true)
  /\ (forall t, TokenStore.loadTokens env base w = Some t ->
        (TokenStore.isAccessTokenExpired env base w = true
         <-> expiresAt t * 1000 - clock w <= 300 * 1000)).
Proof.
  unfold TokenStore.isAccessTokenExpired. split.
  - intros H. rewrite H. reflexivity.
  - intros t H. rewrite H. rewrite Z.geb_le. lia.
Qed.

Lemma expired_iff_witness :
  TokenStore.isAccessTokenExpired Scenario.quiet Scenario.site
    (set_clock 1000000 Scenario.with_sample) = false.
Proof.
  destruct (expired_iff Scenario.quiet Scenario.site
              (set_clock 1000000 Scenario.with_sample)) as [_ H].
  specialize (H Scenario.sample eq_refl).
  destruct (TokenStore.isAccessTokenExpired Scenario.quiet Scenario.site
              (set_clock 1000000 Scenario.with_sample)); [|reflexivity].
  exfalso. destruct H as [H _]. specialize (H eq_refl).
  cbn in H. lia.
Defined.

(** C9, as stated, fails at the boundary: with [expiresAt = 2000] s and
    [Date.now() = 1700000] ms the token has exactly 300 s left, and
    [isAccessTokenExpired] returns true. *)
Lemma expiry_boundary_counterexample :
  TokenStore.loadTokens Scenario.quiet Scenario.site Scenario.with_sample
    = Some Scenario.sample
  /\ expiresAt Scenario.sample * 1000 - clock Scenario.with_sample = 300 * 1000
  /\ TokenStore.isAccessTokenExpired Scenario.quiet Scenario.site
       Scenario.with_sample = true.
Proof. repeat split. Qed.

(** ** The OAuth flow *)

Section FlowFacts.
Import TokenStore OAuthClient.
Variable env : Env.
Variable base : string.

Lemma saveTokens_logs t w :
  token_log (saveTokens env base t w) = token_log w
  /\ api_log (saveTokens env base t w) = api_log w
  /\ sleeps (saveTokens env base t w) = sleeps w
  /\ clock (saveTokens env base t w) = clock w.
Proof. repeat split. Qed.

(** One event of the flow sends no refresh grant and no API request. *)
Lemma auth_step_logs att ev s :
  refreshes (token_log (snd (auth_step env base att ev s))) = refreshes (token_log (snd s))
  /\ api_log (snd (auth_step env base att ev s)) = api_log (snd s)
  /\ sleeps (snd (auth_step env base att ev s)) = sleeps (snd s).
Proof.
  destruct s as [l w]. destruct ev as [req| |]; cbn [auth_step snd].
  - unfold on_request.
    destruct (String.eqb (pathname req) "/callback"); [|repeat split].
    destruct (truthy_str (q_error req)); [repeat split|].
    destruct (state_differs (q_state req) (state att)); [repeat split|].
    cbn [snd]. repeat split.
    unfold refreshes. cbn [token_log set_token_log].
    rewrite filter_app, length_app. cbn. lia.
  - unfold on_exchange_settled.
    destruct (pending l) as [|k rest]; [repeat split|].
    destruct (token_endpoint env k) as [elapsed [tokens|err]]; repeat split.
  - unfold on_timeout. destruct (timer_armed l); repeat split.
Qed.

Lemma run_until_settled_logs att evs :
  forall s,
    refreshes (token_log (snd (run_until_settled env base att evs s)))
      = refreshes (token_log (snd s))
    /\ api_log (snd (run_until_settled env base att evs s)) = api_log (snd s)
    /\ sleeps (snd (run_until_settled env base att evs s)) = sleeps (snd s).
Proof.
  induction evs as [|ev evs IH]; intros s.
  - cbn [run_until_settled]. destruct (promise (fst s)); repeat split.
  - cbn [run_until_settled]. destruct (promise (fst s)); try (repeat split; fail).
    destruct (IH (auth_step env base att ev s)) as (H1 & H2 & H3).
    destruct (auth_step_logs att ev s) as (G1 & G2 & G3).
    repeat split; congruence.
Qed.

Lemma authenticate_logs w :
  refreshes (token_log (snd (authenticate env base w))) = refreshes (token_log w)
  /\ api_log (snd (authenticate env base w)) = api_log w
  /\ sleeps (snd (authenticate env base w)) = sleeps w.
Proof.
  unfold authenticate, randomBytes.
  match goal with
  | |- context [run_until_settled env base ?a ?e ?s] =>
      pose proof (run_until_settled_logs a e s) as H;
      destruct (run_until_settled env base a e s) as [l w4]
  end.
  exact H.
Qed.

Lemma refreshToken_run rt w :
  refreshToken env base rt w =
    let w1 := set_clock (clock w + fst (token_endpoint env (length (token_log w))))
                (set_token_log (token_log w ++ [RefreshGrant rt]) w) in
    match snd (token_endpoint env (length (token_log w))) with
    | Rejected e => (Throw e, w1)
    | Resolved response =>
        (Return response, saveTokens env base (recordOf (clock w1) response) w1)
    end.
Proof.
  unfold refreshToken.
  destruct (token_endpoint env (length (token_log w))) as [elapsed result].
  reflexivity.
Qed.

Lemma refreshes_snoc l rt : refreshes (l ++ [RefreshGrant rt]) = S (refreshes l).
Proof. unfold refreshes. rewrite filter_app, length_app. cbn. lia. Qed.

(** [getAccessToken] sends no API request and does not wait. *)
Lemma getAccessToken_logs w :
  api_log (snd (getAccessToken env base w)) = api_log w
  /\ sleeps (snd (getAccessToken env base w)) = sleeps w.
Proof.
  unfold getAccessToken.
  destruct (loadTokens env base w) as [t|].
  - destruct (isAccessTokenExpired env base w); cbn [negb]; [|split; reflexivity].
    rewrite refreshToken_run. cbv zeta.
    destruct (snd (token_endpoint env (length (token_log w)))) as [resp|e].
    + split; reflexivity.
    + match goal with
      | |- context [authenticate env base ?x] =>
          destruct (authenticate_logs x) as (_ & H2 & H3)
      end.
      split; [rewrite H2 | rewrite H3]; reflexivity.
  - destruct (authenticate_logs w) as (_ & H2 & H3). split; assumption.
Qed.
End FlowFacts.

(** C5.  With a stored record [t]: if it is not expired its access token is
    returned and the world is untouched; if it is expired one refresh grant
    is posted, and on success the record made of the whole response is
    saved and the new access token returned, while on failure the file is
    deleted and [authenticate] is run, with no second refresh grant. *)
Theorem getAccessToken_algorithm
    (env : Env) (base : string) (w : World) (t : StoredTokens) :
  TokenStore.loadTokens env base w = Some t ->
  (TokenStore.isAccessTokenExpired env base w = false ->
     OAuthClient.getAccessToken env base w = (Return (accessToken t), w))
  /\ (TokenStore.isAccessTokenExpired env base w = true ->
      forall elapsed,
        let w1 := set_clock (clock w + elapsed)
                    (set_token_log (token_log w ++ [RefreshGrant (Sys.refreshToken t)]) w) in
        (forall resp,
           token_endpoint env (length (token_log w)) = (elapsed, Resolved resp) ->
           let w2 := TokenStore.saveTokens env base
                       (OAuthClient.recordOf (clock w1) resp) w1 in
           OAuthClient.getAccessToken env base w = (Return (access_token resp), w2)
           /\ token_log w2 = (token_log w ++ [RefreshGrant (Sys.refreshToken t)])%list
           /\ (cipher_sound env ->
               TokenStore.loadTokens env base w2
               = Some {| accessToken := access_token resp;
                         Sys.refreshToken := refresh_token resp;
                         expiresAt := (clock w + elapsed) / 1000 + expires_in resp;
                         scope := resp_scope resp |}))
        /\ (forall e,
              token_endpoint env (length (token_log w)) = (elapsed, Rejected e) ->
              OAuthClient.getAccessToken env base w
              = OAuthClient.authenticate env base (TokenStore.clearTokens w1)
              /\ file (TokenStore.clearTokens w1) = None
              /\ refreshes (token_log (snd (OAuthClient.getAccessToken env base w)))
                 = S (refreshes (token_log w)))).
Proof.
  intros Hload. split.
  - intros Hexp. unfold OAuthClient.getAccessToken. rewrite Hload, Hexp. reflexivity.
  - intros Hexp elapsed w1. split.
    + intros resp Hep w2.
      assert (Hget : OAuthClient.getAccessToken env base w = (Return (access_token resp), w2)).
      { unfold OAuthClient.getAccessToken. rewrite Hload, Hexp. cbn [negb].
        rewrite refreshToken_run, Hep. reflexivity. }
      split; [exact Hget|]. split; [reflexivity|].
      intros Hc. subst w2. rewrite load_after_save by exact Hc. reflexivity.
    + intros e Hep.
      assert (Hget : OAuthClient.getAccessToken env base w
                     = OAuthClient.authenticate env base (TokenStore.clearTokens w1)).
      { unfold OAuthClient.getAccessToken. rewrite Hload, Hexp. cbn [negb].
        rewrite refreshToken_run, Hep. reflexivity. }
      split; [exact Hget|]. split; [reflexivity|].
      rewrite Hget.
      destruct (authenticate_logs env base (TokenStore.clearTokens w1)) as (H1 & _).
      rewrite H1. subst w1. cbn [TokenStore.clearTokens token_log set_file set_clock set_token_log].
      apply refreshes_snoc.
Qed.

(** The stored [sample], read one second after it has entered the
    five-minute buffer, on a machine whose token endpoint answers with
    [fresh_response] after 40 ms. *)
Lemma getAccessToken_algorithm_witness :
  let env := Scenario.mk_env "laptop"
               (fun _ => (40, Resolved Scenario.fresh_response))
               Scenario.no_api Scenario.no_script in
  let w := set_clock 1701000 Scenario.with_sample in
  exists w2,
    OAuthClient.getAccessToken env Scenario.site w = (Return "AT-2", w2)
    /\ token_log w2 = [RefreshGrant "RT-1"]
    /\ TokenStore.loadTokens env Scenario.site w2
       = Some {| accessToken := "AT-2"; Sys.refreshToken := "RT-2";
                 expiresAt := 5301; scope := "full_access" |}.
Proof.
  intros env w.
  destruct (getAccessToken_algorithm env Scenario.site w Scenario.sample eq_refl)
    as [_ H].
  destruct (H eq_refl 40) as [Hok _].
  destruct (Hok Scenario.fresh_response eq_refl) as (Hget & Hlog & Hfile).
  eexists. split; [exact Hget|]. split; [exact Hlog|].
  apply Hfile. apply toy_cipher_sound.
Defined.

(** C6, as the code has it.  A request to [/callback] that carries no error
    parameter and whose state is not the attempt's, received while the
    attempt is unsettled, is answered with status 400, closes the listener,
    rejects the attempt with "State mismatch", and sends nothing to the
    token endpoint. *)
Theorem state_mismatch_aborts
    (env : Env) (base : string) (att : OAuthClient.Attempt) (req : Callback)
    (l : OAuthClient.Listener) (w : World) :
  pathname req = "/callback" ->
  truthy_str (q_error req) = false ->
  OAuthClient.state_differs (q_state req) (OAuthClient.state att) = true ->
  OAuthClient.promise l = Hang ->
  let s := OAuthClient.auth_step env base att (Request req) (l, w) in
  OAuthClient.promise (fst s) = Throw (StdError "State mismatch")
  /\ OAuthClient.listening (fst s) = false
  /\ OAuthClient.close_calls (fst s) = S (OAuthClient.close_calls l)
  /\ OAuthClient.pending (fst s) = OAuthClient.pending l
  /\ OAuthClient.replies (fst s) = (OAuthClient.replies l ++ [400])%list
  /\ snd s = w.
Proof.
  intros Hp He Hs Hh s. subst s.
  cbn [OAuthClient.auth_step]. unfold OAuthClient.on_request.
  rewrite Hp, He, Hs. cbn [String.eqb fst snd].
  unfold OAuthClient.settle. cbn [OAuthClient.promise OAuthClient.close OAuthClient.reply].
  rewrite Hh. repeat split.
Qed.

Lemma state_mismatch_aborts_witness :
  let att := {| OAuthClient.codeVerifier := "v"; OAuthClient.state := "5f3a" |} in
  let req := {| pathname := "/callback"; q_code := Some "c0de";
                q_state := Some "0000"; q_error := None |} in
  let s := OAuthClient.auth_step Scenario.quiet Scenario.site att (Request req)
             (OAuthClient.started, Scenario.blank) in
  OAuthClient.promise (fst s) = Throw (StdError "State mismatch")
  /\ OAuthClient.listening (fst s) = false
  /\ token_log (snd s) = [].
Proof.
  intros att req s.
  destruct (state_mismatch_aborts Scenario.quiet Scenario.site att req
              OAuthClient.started Scenario.blank eq_refl eq_refl eq_refl eq_refl)
    as (H1 & H2 & _ & _ & _ & H6).
  split; [exact H1|]. split; [exact H2|].
  fold s in H6. rewrite H6. reflexivity.
Defined.

(** C6, as stated, fails: a callback whose state is not the attempt's but
    which carries an error parameter is rejected as an OAuth error, not as a
    state mismatch. *)
Lemma state_mismatch_counterexample :
  let att := {| OAuthClient.codeVerifier := "v"; OAuthClient.state := "5f3a" |} in
  let req := {| pathname := "/callback"; q_code := None;
                q_state := Some "0000"; q_error := Some "access_denied" |} in
  let s := OAuthClient.auth_step Scenario.quiet Scenario.site att (Request req)
             (OAuthClient.started, Scenario.blank) in
  OAuthClient.state_differs (q_state req) (OAuthClient.state att) = true
  /\ OAuthClient.promise (fst s) = Throw (StdError "OAuth error: access_denied")
  /\ OAuthClient.promise (fst s) <> Throw (StdError "State mismatch").
Proof. repeat split. discriminate. Qed.

Section ListenerFacts.
Import OAuthClient.
Variable env : Env.
Variable base : string.
Variable att : Attempt.









End ListenerFacts.






(** ** The API client *)

Section FacadeFacts.
Import ErrorHandler OAuthClient ApiClient.
Variable env : Env.
Variable base : string.

Lemma http_run bearer w :
  http env bearer w =
    let w2 := set_clock (clock w + fst (api_endpoint env (length (api_log w))))
                (set_api_log (api_log w ++ [bearer]) w) in
    match snd (api_endpoint env (length (api_log w))) with
    | Resolved body => (Return body, w2)
    | Rejected e => (Throw e, w2)
    end.
Proof.
  unfold http. destruct (api_endpoint env (length (api_log w))) as [el res].
  reflexivity.
Qed.

(** A first call that fails with an axios error other than a 401 makes
    the function handed to [withRetry] throw a plain [Error]. *)
Lemma attempt_rethrows_plain w tok w0 elapsed msg resp :
  getAccessToken env base w = (Return tok, w0) ->
  api_endpoint env (length (api_log w0)) = (elapsed, Rejected (Axios msg resp)) ->
  is401 resp = false ->
  let w1 := set_clock (clock w0 + elapsed) (set_api_log (api_log w0 ++ [tok]) w0) in
  attempt env base w
  = (Throw (StdError (formatErrorForUser
                        (parseError env (clock w1) (Axios msg resp)))), w1).
Proof.
  intros Hget Hep H401 w1.
  unfold attempt, bind at 1. rewrite Hget.
  unfold try_catch, bind. rewrite http_run, Hep. cbn [fst snd].
  unfold on_failure. rewrite H401. reflexivity.
Qed.

(** A 401 on the first call and on the replay: the second axios error
    leaves the function handed to [withRetry] as it is. *)
Lemma attempt_replay_401 w tok w0 el1 msg1 resp1 tok2 w2 el2 msg2 resp2 :
  getAccessToken env base w = (Return tok, w0) ->
  api_endpoint env (length (api_log w0)) = (el1, Rejected (Axios msg1 resp1)) ->
  is401 resp1 = true ->
  getAccessToken env base
    (set_clock (clock w0 + el1) (set_api_log (api_log w0 ++ [tok]) w0))
  = (Return tok2, w2) ->
  api_endpoint env (length (api_log w2)) = (el2, Rejected (Axios msg2 resp2)) ->
  attempt env base w
  = (Throw (Axios msg2 resp2),
     set_clock (clock w2 + el2) (set_api_log (api_log w2 ++ [tok2]) w2)).
Proof.
  intros Hget Hep H401 Hget2 Hep2.
  unfold attempt, bind at 1. rewrite Hget.
  unfold try_catch, bind at 1. rewrite http_run, Hep. cbn [fst snd].
  unfold on_failure. rewrite H401.
  unfold bind at 1. rewrite Hget2.
  unfold bind. rewrite http_run, Hep2. reflexivity.
Qed.

(** [withRetry] under the default policy gives up at once on a failure
    that [parseError] does not mark retryable. *)
Lemma withRetry_gives_up T (fn : Async T) w e w1 :
  fn w = (Throw e, w1) ->
  retryable (parseError env (clock w1) e) = false ->
  withRetry_counted env fn no_override w = (Throw e, w1, [Throw e]).
Proof.
  intros Hfn Hr. unfold withRetry_counted.
  change (Z.to_nat (maxRetries (merge no_override) + 1)) with 4%nat.
  cbn [retry_loop]. rewrite Hfn. unfold givesUp. rewrite Hr. reflexivity.
Qed.
(** A replay that fails with a 401 ends the request: the replay's own
    error is rethrown after that single run of the operation. *)
Lemma request_replay_401_not_retried w tok w0 el1 msg1 resp1 tok2 w2 el2 msg2 resp2 :
  getAccessToken env base w = (Return tok, w0) ->
  api_endpoint env (length (api_log w0)) = (el1, Rejected (Axios msg1 resp1)) ->
  is401 resp1 = true ->
  getAccessToken env base
    (set_clock (clock w0 + el1) (set_api_log (api_log w0 ++ [tok]) w0))
  = (Return tok2, w2) ->
  api_endpoint env (length (api_log w2)) = (el2, Rejected (Axios msg2 resp2)) ->
  is401 resp2 = true ->
  request_counted env base w
  = (Throw (Axios msg2 resp2),
     set_clock (clock w2 + el2) (set_api_log (api_log w2 ++ [tok2]) w2),
     [Throw (Axios msg2 resp2)]).
Proof.
  intros Hget Hep H401 Hget2 Hep2 H401'.
  unfold request_counted. apply withRetry_gives_up.
  - apply (attempt_replay_401 w tok w0 el1 msg1 resp1 tok2 w2 el2 msg2 resp2);
      assumption.
  - destruct resp2 as [r2|]; [|discriminate H401'].
    cbn [is401] in H401'. apply Z.eqb_eq in H401'.
    cbn [parseError retryable]. rewrite H401'. reflexivity.
Qed.
End FacadeFacts.

(** C3.  When the first HTTP call of a facade request fails with an axios
    error whose status is not 401 (429 and 5xx among them), the facade
    rethrows a plain [Error] carrying the formatted message; [withRetry]
    classifies it as Unknown, not retryable, and gives up: the operation
    ran once, one HTTP request was sent, and nothing was waited for. *)
Theorem request_plain_error_not_retried
    (env : Env) (base : string) (w : World) (tok : string) (w0 : World)
    (elapsed : Z) (msg : string) (resp : option AxiosResponse) :
  OAuthClient.getAccessToken env base w = (Return tok, w0) ->
  api_endpoint env (length (api_log w0)) = (elapsed, Rejected (Axios msg resp)) ->
  ApiClient.is401 resp = false ->
  let w1 := set_clock (clock w0 + elapsed) (set_api_log (api_log w0 ++ [tok]) w0) in
  let rethrown :=
    StdError (ErrorHandler.formatErrorForUser
                (ErrorHandler.parseError env (clock w1) (Axios msg resp))) in
  ErrorHandler.category (ErrorHandler.parseError env (clock w1) rethrown)
    = ErrorHandler.UNKNOWN
  /\ ErrorHandler.retryable (ErrorHandler.parseError env (clock w1) rethrown) = false
  /\ ApiClient.request_counted env base w = (Throw rethrown, w1, [Throw rethrown])
  /\ api_log w1 = (api_log w ++ [tok])%list
  /\ sleeps w1 = sleeps w.
Proof.
  intros Hget Hep H401 w1 rethrown.
  split; [reflexivity|]. split; [reflexivity|].
  pose proof (getAccessToken_logs env base w) as [Hapi Hsl].
  rewrite Hget in Hapi, Hsl. cbn [snd] in Hapi, Hsl.
  split; [|split].
  - unfold ApiClient.request_counted.
    apply withRetry_gives_up; [|reflexivity].
    apply (attempt_rethrows_plain env base w tok w0 elapsed msg resp Hget Hep H401).
  - subst w1. cbn [api_log set_clock set_api_log]. rewrite Hapi. reflexivity.
  - subst w1. cbn [sleeps set_clock set_api_log]. exact Hsl.
Qed.

(** With an unexpired stored token and a server that answers 503. *)
Lemma request_plain_error_not_retried_witness :
  let env := Scenario.mk_env "laptop" Scenario.no_tokens
               (fun _ => (25, Rejected (Scenario.status_only 503)))
               Scenario.no_script in
  let w := set_clock 1000000 Scenario.with_sample in
  exists w1 e,
    ApiClient.request_counted env Scenario.site w = (Throw (StdError e), w1, [Throw (StdError e)])
    /\ api_log w1 = ["AT-1"]
    /\ sleeps w1 = [].
Proof.
  intros env w.
  destruct (request_plain_error_not_retried env Scenario.site w "AT-1" w 25
              "Request failed"
              (Some {| status := 503; retry_after := None; data := None |})
              eq_refl eq_refl eq_refl) as (_ & _ & Hrun & Hapi & Hsl).
  eexists _, _. split; [exact Hrun|]. split; [exact Hapi | exact Hsl].
Defined.

(** C2, on the code.  The stored token has 1000 s left and the server
    answers 401 to every request.  [request] calls [getAccessToken] again,
    which returns the same stored token without any refresh grant, replays
    with that token, and rethrows the replay's 401 without retrying. *)
Theorem request_401_replays_without_refresh :
  let env := Scenario.mk_env "laptop" Scenario.no_tokens
               (fun _ => (25, Rejected (Scenario.status_only 401)))
               Scenario.no_script in
  let w := set_clock 1000000 Scenario.with_sample in
  TokenStore.isAccessTokenExpired env Scenario.site w = false
  /\ exists w',
       ApiClient.request_counted env Scenario.site w
       = (Throw (Scenario.status_only 401), w', [Throw (Scenario.status_only 401)])
       /\ token_log w' = []
       /\ api_log w' = ["AT-1"; "AT-1"]
       /\ auth_calls w' = 0%nat
       /\ ErrorHandler.category
            (ErrorHandler.parseError env (clock w') (Scenario.status_only 401))
          = ErrorHandler.AUTHENTICATION.
Proof.
  intros env w. split; [reflexivity|].
  eexists. split; [vm_compute; reflexivity|].
  repeat split.
Qed.

(* ================================================================== *)
(** * Further properties *)

(** ** error-handler.ts *)

(** X1.  Whatever is thrown, the [retryable] flag of its classification is
    the one [isRetryable] gives for its category. *)
Theorem retryable_by_category (env : Env) (now : Z) (e : JsError) :
  ErrorHandler.retryable (ErrorHandler.parseError env now e)
  = ErrorHandler.isRetryable (ErrorHandler.category (ErrorHandler.parseError env now e)).
Proof. destruct e as [msg [resp|]|msg|text]; reflexivity. Qed.

Lemma categorize_other (s : Z) :
  ~ In s [401; 403; 404; 422; 400; 429; 500; 502; 503; 504] ->
  ErrorHandler.categorizeHttpError s = ErrorHandler.UNKNOWN.
Proof.
  intros H.
  assert (H' : s <> 401 /\ s <> 403 /\ s <> 404 /\ s <> 422 /\ s <> 400
               /\ s <> 429 /\ s <> 500 /\ s <> 502 /\ s <> 503 /\ s <> 504).
  { repeat split; intros E; apply H; subst; cbn; tauto. }
  clear H. destruct H' as (H1&H2&H3&H4&H5&H6&H7&H8&H9&H10).
  destruct s as [|p|p]; try reflexivity.
  do 10 (try (destruct p as [p|p|]; try reflexivity; try congruence)).
Qed.

(** X2.  An axios error with a response is retryable exactly for the
    statuses 429, 500, 502, 503, 504, and 0 (which is read as 500). *)
Theorem retryable_statuses
    (env : Env) (now : Z) (msg : string) (resp : AxiosResponse) :
  ErrorHandler.retryable (ErrorHandler.parseError env now (Axios msg (Some resp))) = true
  <-> In (status resp) [0; 429; 500; 502; 503; 504].
Proof.
  cbn [ErrorHandler.parseError ErrorHandler.retryable].
  destruct (Z.eqb_spec (status resp) 0) as [E0|N0].
  - rewrite E0. cbn. tauto.
  - split.
    + intros Hr.
      destruct (in_dec Z.eq_dec (status resp)
                  [401; 403; 404; 422; 400; 429; 500; 502; 503; 504]) as [Hin|Hout].
      * cbn in Hin.
        destruct Hin as [E|[E|[E|[E|[E|[E|[E|[E|[E|[E|[]]]]]]]]]]];
          rewrite <- E in *; cbn in Hr; try discriminate; cbn; tauto.
      * rewrite (categorize_other _ Hout) in Hr. discriminate.
    + intros Hin. cbn in Hin.
      destruct Hin as [E|[E|[E|[E|[E|[E|[]]]]]]]; rewrite <- E; try reflexivity.
      congruence.
Qed.

Lemma retryable_statuses_witness :
  ErrorHandler.retryable
    (ErrorHandler.parseError Scenario.quiet 0 (Scenario.status_only 503)) = true.
Proof.
  apply (retryable_statuses Scenario.quiet 0 "Request failed"
           {| status := 503; retry_after := None; data := None |}).
  cbn. tauto.
Defined.

(** X3.  For every failure that [parseError] marks retryable, the delay of
    [withRetry] is the classified [retryAfter] in milliseconds, it is not
    zero, and [Math.random] is not drawn: [calculateRetryDelay] is not
    reached. *)
Theorem retryable_wait_is_retryAfter
    (env : Env) (now : Z) (e : JsError) (attempt : Z)
    (config : ErrorHandler.RetryConfig) (w : World) :
  ErrorHandler.retryable (ErrorHandler.parseError env now e) = true ->
  exists s,
    s <> 0
    /\ ErrorHandler.retryAfter (ErrorHandler.parseError env now e) = Some (Num s)
    /\ ErrorHandler.retryDelay env attempt config (ErrorHandler.parseError env now e) w
       = (s * 1000, w).
Proof.
  intros Hr.
  destruct (retryable_has_retryAfter env now e Hr) as [s [Hs Hn]].
  exists s. split; [exact Hn|]. split; [exact Hs|].
  apply retryDelay_explicit; assumption.
Qed.

Lemma retryable_wait_is_retryAfter_witness :
  exists s,
    s <> 0
    /\ ErrorHandler.retryDelay Scenario.quiet 2 ErrorHandler.DEFAULT_RETRY_CONFIG
         (ErrorHandler.parseError Scenario.quiet 0 (Axios "Network Error" None))
         Scenario.blank
       = (s * 1000, Scenario.blank).
Proof.
  destruct (retryable_wait_is_retryAfter Scenario.quiet 0 (Axios "Network Error" None)
              2 ErrorHandler.DEFAULT_RETRY_CONFIG Scenario.blank eq_refl)
    as [s [Hn [_ Hd]]].
  exists s. split; assumption.
Defined.

Lemma Math_min_integers (a b : Z) :
  (ErrorHandler.Math_min (inject_Z a) (inject_Z b) == inject_Z (Z.min a b))%Q.
Proof.
  unfold ErrorHandler.Math_min.
  destruct (Qle_bool (inject_Z a) (inject_Z b)) eqn:E.
  - apply Qle_bool_iff in E. rewrite <- Zle_Qle in E.
    rewrite Z.min_l by exact E. reflexivity.
  - assert (Hgt : b < a).
    { destruct (Z.le_gt_cases a b) as [Hle|Hgt]; [|lia].
      rewrite Zle_Qle in Hle. apply Qle_bool_iff in Hle. congruence. }
    rewrite Z.min_r by lia. reflexivity.
Qed.

Lemma Math_min_comp (a a' b : Q) :
  (a == a')%Q -> (ErrorHandler.Math_min a b == ErrorHandler.Math_min a' b)%Q.
Proof.
  intros E. unfold ErrorHandler.Math_min.
  destruct (Qle_bool a b) eqn:Ha, (Qle_bool a' b) eqn:Hb; try reflexivity; try exact E.
  - apply Qle_bool_iff in Ha. rewrite E in Ha.
    assert (Hn : ~ (a' <= b)%Q) by (intro H; apply Qle_bool_iff in H; congruence).
    contradiction.
  - apply Qle_bool_iff in Hb. rewrite <- E in Hb.
    assert (Hn : ~ (a <= b)%Q) by (intro H; apply Qle_bool_iff in H; congruence).
    contradiction.
Qed.

(** X4.  For an attempt number that is not negative, with
    [d = min(baseDelay * 2^attempt, maxDelay)] not negative and
    [Math.random()] in [0, 1), [calculateRetryDelay] is within a tenth of
    [d], up to rounding; in particular it is at most a tenth above
    [maxDelay]. *)
Theorem retry_delay_bounds
    (attempt : Z) (config : ErrorHandler.RetryConfig) (rnd : Q) :
  let d := Z.min (ErrorHandler.baseDelay config * 2 ^ attempt)
                 (ErrorHandler.maxDelay config) in
  0 <= attempt ->
  0 <= d ->
  (0 <= rnd)%Q -> (rnd < 1)%Q ->
  9 * d - 5 <= 10 * ErrorHandler.calculateRetryDelay attempt config rnd
  /\ 10 * ErrorHandler.calculateRetryDelay attempt config rnd <= 11 * d + 5
  /\ 10 * ErrorHandler.calculateRetryDelay attempt config rnd
     <= 11 * ErrorHandler.maxDelay config + 5.
Proof.
  intros d Hatt Hd H0 H1.
  unfold ErrorHandler.calculateRetryDelay, ErrorHandler.Math_round.
  assert (Hdelay : (ErrorHandler.Math_min
                      (inject_Z (ErrorHandler.baseDelay config) * Qpower 2 attempt)
                      (inject_Z (ErrorHandler.maxDelay config)) == inject_Z d)%Q).
  { rewrite (Math_min_comp _ (inject_Z (ErrorHandler.baseDelay config * 2 ^ attempt))).
    - apply Math_min_integers.
    - rewrite inject_Z_mult, (Zpower_Qpower 2 attempt Hatt). reflexivity. }
  rewrite Hdelay.
  set (x := (inject_Z d + inject_Z d * (2 # 10) * (rnd - (5 # 10)) + (1 # 2))%Q).
  pose proof (Qfloor_le x) as Hle.
  pose proof (Qlt_floor x) as Hlt.
  set (f := Qfloor x) in *.
  assert (HD : (0 <= inject_Z d)%Q) by (rewrite Zle_Qle in Hd; exact Hd).
  assert (Hp0 : (0 <= inject_Z d * rnd)%Q) by (apply Qmult_le_0_compat; assumption).
  assert (Hp1 : (0 <= inject_Z d * (1 - rnd))%Q)
    by (apply Qmult_le_0_compat; [assumption|lra]).
  rewrite inject_Z_plus in Hlt. subst x.
  assert (E : (inject_Z d * (2 # 10) * (rnd - (5 # 10))
               == (2 # 10) * (inject_Z d * rnd) - (1 # 10) * inject_Z d)%Q) by ring.
  rewrite E in Hle, Hlt.
  assert (E2 : (inject_Z d * (1 - rnd) == inject_Z d - inject_Z d * rnd)%Q) by ring.
  rewrite E2 in Hp1.
  change (inject_Z 1) with 1%Q in Hlt.
  set (p := (inject_Z d * rnd)%Q) in *.
  assert (G1 : 9 * d - 5 <= 10 * f).
  { rewrite Zle_Qle. unfold Z.sub.
    rewrite inject_Z_plus, !inject_Z_mult.
    change (inject_Z 9) with (9 # 1)%Q. change (inject_Z 10) with (10 # 1)%Q.
    change (inject_Z (- (5))) with (-5 # 1)%Q.
    clear E E2 Hdelay. clearbody p f d.
    set (D := inject_Z d) in *. set (F := inject_Z f) in *. clearbody D F. lra. }
  assert (G2 : 10 * f <= 11 * d + 5).
  { rewrite Zle_Qle.
    rewrite inject_Z_plus, !inject_Z_mult.
    change (inject_Z 11) with (11 # 1)%Q. change (inject_Z 10) with (10 # 1)%Q.
    change (inject_Z 5) with (5 # 1)%Q.
    clear E E2 Hdelay. clearbody p f d.
    set (D := inject_Z d) in *. set (F := inject_Z f) in *. clearbody D F. lra. }
  split; [exact G1|]. split; [exact G2|].
  pose proof (Z.le_min_r (ErrorHandler.baseDelay config * 2 ^ attempt)
                (ErrorHandler.maxDelay config)) as Hm.
  fold d in Hm. lia.
Qed.

Lemma retry_delay_bounds_witness :
  9 * 4000 - 5 <= 10 * ErrorHandler.calculateRetryDelay 2 ErrorHandler.DEFAULT_RETRY_CONFIG (99 # 100)
  /\ 10 * ErrorHandler.calculateRetryDelay 2 ErrorHandler.DEFAULT_RETRY_CONFIG (99 # 100)
     <= 11 * 4000 + 5.
Proof.
  destruct (retry_delay_bounds 2 ErrorHandler.DEFAULT_RETRY_CONFIG (99 # 100))
    as (H1 & H2 & _).
  - lia.
  - cbn. lia.
  - unfold Qle. cbn. lia.
  - unfold Qlt. cbn. lia.
  - split; [exact H1 | exact H2].
Defined.

Section RetryMore.
Import ErrorHandler.
Variable env : Env.
Variable T : Type.
Variable fn : Async T.
Variable cfg : RetryConfig.

Lemma retry_loop_exhausts (fuel : nat) :
  always_retryable env fn cfg ->
  forall attempt lastError w r w' calls,
    attempt + Z.of_nat fuel = maxRetries cfg + 1 ->
    (0 < fuel)%nat ->
    retry_loop env fn cfg fuel attempt lastError w = (r, w', calls) ->
    length calls = fuel /\ exists e, r = Throw e.
Proof.
  intros Hall.
  induction fuel as [|fuel IH]; intros attempt lastError w r w' calls Hb Hpos Hrun.
  - lia.
  - cbn [retry_loop] in Hrun.
    destruct (Hall w) as (e & w1 & Hfn & Hr & Hc). rewrite Hfn in Hrun.
    unfold givesUp in Hrun. rewrite Hr, Hc in Hrun. cbn [negb orb] in Hrun.
    destruct (attempt =? maxRetries cfg) eqn:Heq.
    + apply Z.eqb_eq in Heq. inversion Hrun; subst.
      split; [cbn; lia | eexists; reflexivity].
    + apply Z.eqb_neq in Heq.
      destruct (retryDelay env attempt cfg (parseError env (clock w1) e) w1)
        as [delay w2].
      destruct (retry_loop env fn cfg fuel (attempt + 1)
                  (Some (parseError env (clock w1) e))
                  (snd (sleep delay w2))) as [[r0 w4] calls0] eqn:Hrec.
      inversion Hrun; subst.
      assert (Hb' : attempt + 1 + Z.of_nat fuel = maxRetries cfg + 1) by lia.
      assert (Hf : (0 < fuel)%nat) by lia.
      destruct (IH _ _ _ _ _ _ Hb' Hf Hrec) as [Hlen Hth].
      split; [cbn; lia | exact Hth].
Qed.

(** Every call but the last one ended in a throw. *)
Lemma retry_loop_earlier_calls (fuel : nat) :
  forall attempt lastError w r w' calls,
    retry_loop env fn cfg fuel attempt lastError w = (r, w', calls) ->
    Forall (fun c => exists e, c = Throw e) (removelast calls).
Proof.
  induction fuel as [|fuel IH]; intros attempt lastError w r w' calls Hrun.
  - inversion Hrun; subst. constructor.
  - cbn [retry_loop] in Hrun.
    destruct (fn w) as [[v|error|] w1] eqn:Hfn.
    + inversion Hrun; subst. constructor.
    + destruct (givesUp cfg attempt (parseError env (clock w1) error)).
      * inversion Hrun; subst. constructor.
      * destruct (retryDelay env attempt cfg (parseError env (clock w1) error) w1)
          as [delay w2].
        destruct (retry_loop env fn cfg fuel (attempt + 1)
                    (Some (parseError env (clock w1) error))
                    (snd (sleep delay w2))) as [[r0 w4] calls0] eqn:Hrec.
        inversion Hrun; subst.
        specialize (IH _ _ _ _ _ _ Hrec).
        destruct calls0 as [|c cs]; [constructor|].
        change (removelast (Throw error :: c :: cs))
          with (Throw error :: removelast (c :: cs)).
        constructor; [eexists; reflexivity | exact IH].
    + inversion Hrun; subst. constructor.
Qed.
End RetryMore.

(** X5.  When every call fails with an error the policy retries,
    [withRetry] with [maxRetries = N >= 0] makes exactly [N + 1] calls and
    ends by throwing what the last call threw. *)
Theorem withRetry_exhausts
    (env : Env) (T : Type) (fn : Async T)
    (config : ErrorHandler.PartialRetryConfig) (w : World)
    (r : Outcome T) (w' : World) (calls : list (Outcome T)) :
  always_retryable env fn (ErrorHandler.merge config) ->
  0 <= ErrorHandler.maxRetries (ErrorHandler.merge config) ->
  ErrorHandler.withRetry_counted env fn config w = (r, w', calls) ->
  Z.of_nat (length calls) = ErrorHandler.maxRetries (ErrorHandler.merge config) + 1
  /\ exists e, r = Throw e /\ last calls Hang = Throw e.
Proof.
  intros Hall Hn Hrun. unfold ErrorHandler.withRetry_counted in Hrun.
  set (cfg := ErrorHandler.merge config) in *.
  assert (Hfuel : (0 < Z.to_nat (ErrorHandler.maxRetries cfg + 1))%nat) by lia.
  assert (Hb : 0 + Z.of_nat (Z.to_nat (ErrorHandler.maxRetries cfg + 1))
               = ErrorHandler.maxRetries cfg + 1) by lia.
  destruct (retry_loop_exhausts env T fn cfg _ Hall 0 None w r w' calls Hb Hfuel Hrun)
    as [Hlen [e He]].
  destruct (retry_loop_spec env T fn cfg _ 0 None w r w' calls Hb Hfuel Hrun)
    as [_ [_ Hlast]].
  split; [lia|]. exists e. split; [exact He|]. rewrite Hlast. exact He.
Qed.

Lemma withRetry_exhausts_witness :
  let fn : Async unit := fun w => (Throw (Scenario.status_only 503), w) in
  exists w' calls,
    ErrorHandler.withRetry_counted Scenario.quiet fn ErrorHandler.no_override Scenario.blank
      = (Throw (Scenario.status_only 503), w', calls)
    /\ Z.of_nat (length calls) = 3 + 1.
Proof.
  intro fn.
  destruct (ErrorHandler.withRetry_counted Scenario.quiet fn
              ErrorHandler.no_override Scenario.blank) as [[r w'] calls] eqn:Hrun.
  assert (Hall : always_retryable Scenario.quiet fn
                   (ErrorHandler.merge ErrorHandler.no_override)).
  { intros w. exists (Scenario.status_only 503), w. repeat split. }
  destruct (withRetry_exhausts Scenario.quiet unit fn ErrorHandler.no_override
              Scenario.blank r w' calls Hall ltac:(cbn; lia) Hrun) as [Hlen _].
  vm_compute in Hrun. inversion Hrun; subst.
  eexists _, _. split; [reflexivity | exact Hlen].
Defined.

(** X6.  Whatever the policy, every call [withRetry] makes, except the last
    one, ended in a throw: the operation is not called again after it has
    returned or hung. *)
Theorem withRetry_stops_at_first_result
    (env : Env) (T : Type) (fn : Async T)
    (config : ErrorHandler.PartialRetryConfig) (w : World)
    (r : Outcome T) (w' : World) (calls : list (Outcome T)) :
  ErrorHandler.withRetry_counted env fn config w = (r, w', calls) ->
  Forall (fun c => exists e, c = Throw e) (removelast calls).
Proof.
  intros Hrun. unfold ErrorHandler.withRetry_counted in Hrun.
  apply (retry_loop_earlier_calls env T fn _ _ _ _ _ _ _ _ Hrun).
Qed.

Lemma withRetry_stops_at_first_result_witness :
  let fn : Async nat := fun w =>
    if (length (sleeps w) <? 2)%nat
    then (Throw (Scenario.status_only 503), w)
    else (Return 7%nat, w) in
  exists w' calls,
    ErrorHandler.withRetry_counted Scenario.quiet fn ErrorHandler.no_override Scenario.blank
      = (Return 7%nat, w', calls)
    /\ Forall (fun c => exists e, c = Throw e) (removelast calls)
    /\ length calls = 3%nat.
Proof.
  intro fn.
  destruct (ErrorHandler.withRetry_counted Scenario.quiet fn
              ErrorHandler.no_override Scenario.blank) as [[r w'] calls] eqn:Hrun.
  pose proof (withRetry_stops_at_first_result Scenario.quiet nat fn
                ErrorHandler.no_override Scenario.blank r w' calls Hrun) as Hall.
  vm_compute in Hrun. inversion Hrun; subst.
  eexists _, _. split; [reflexivity|]. split; [exact Hall | reflexivity].
Defined.

(** X7.  The text a server sends with a failure reaches the user message
    only for the categories Authorization, NotFound and Validation; for
    every other category the message is the fixed one. *)
Theorem userMessage_source
    (env : Env) (now : Z) (msg : string) (resp : AxiosResponse) :
  let le := ErrorHandler.parseError env now (Axios msg (Some resp)) in
  (In (ErrorHandler.category le)
      [ErrorHandler.AUTHENTICATION; ErrorHandler.RATE_LIMIT;
       ErrorHandler.SERVER; ErrorHandler.UNKNOWN] ->
   ErrorHandler.userMessage le
   = ErrorHandler.getUserMessage (ErrorHandler.category le) None)
  /\ (forall text,
        In (ErrorHandler.category le)
           [ErrorHandler.AUTHORIZATION; ErrorHandler.NOT_FOUND;
            ErrorHandler.VALIDATION] ->
        ErrorHandler.apiMessageOf (data resp) = Some text ->
        text <> EmptyString ->
        ErrorHandler.userMessage le = text).
Proof.
  cbn [ErrorHandler.parseError ErrorHandler.category ErrorHandler.userMessage].
  set (c := ErrorHandler.categorizeHttpError _).
  split.
  - intros Hin. destruct c; cbn in Hin;
      try reflexivity; exfalso; intuition discriminate.
  - intros text Hin Hm Hne. rewrite Hm.
    destruct text as [|a t]; [congruence|].
    destruct c; cbn in Hin; try reflexivity; exfalso; intuition discriminate.
Qed.

Lemma userMessage_source_witness :
  let resp := {| status := 403; retry_after := None;
                 data := Some {| error_description := None;
                                 data_message := Some "Upgrade to Pro to use this tool";
                                 data_error := Some "forbidden" |} |} in
  ErrorHandler.userMessage (ErrorHandler.parseError Scenario.quiet 0 (Axios "Request failed" (Some resp)))
  = "Upgrade to Pro to use this tool".
Proof.
  intro resp.
  destruct (userMessage_source Scenario.quiet 0 "Request failed" resp) as [_ H].
  apply H.
  - cbn. tauto.
  - reflexivity.
  - discriminate.
Defined.

(** ** token-store.ts *)

(** X8.  [decrypt] gives back the text that [encrypt] was given, whatever
    the random initialisation vector drawn. *)
Theorem decrypt_after_encrypt (env : Env) (text : string) (w : World) :
  cipher_sound env ->
  TokenStore.decrypt env (fst (TokenStore.encrypt env text w)) = Some text.
Proof. intros Hc. apply decrypt_encrypt. exact Hc. Qed.

Lemma decrypt_after_encrypt_witness :
  TokenStore.decrypt Scenario.quiet
    (fst (TokenStore.encrypt Scenario.quiet "AT-1" Scenario.blank)) = Some "AT-1".
Proof.
  apply (decrypt_after_encrypt Scenario.quiet "AT-1" Scenario.blank).
  apply toy_cipher_sound.
Defined.

Lemma split_not_nil (sep : ascii) (s : string) : TokenStore.split sep s <> [].
Proof.
  induction s as [|c r IH]; cbn [TokenStore.split]; [discriminate|].
  destruct (Ascii.eqb c sep); [discriminate|].
  destruct (TokenStore.split sep r); [contradiction|discriminate].
Qed.

(** X9.  [decrypt] throws, whatever the cipher, on a text with no colon,
    and on a text whose part before the first colon does not read as 16
    bytes of hexadecimal. *)
Theorem decrypt_malformed (env : Env) :
  (forall text, lacks ":" text = true -> TokenStore.decrypt env text = None)
  /\ (forall ivHex rest,
        lacks ":" ivHex = true ->
        length (TokenStore.hex_decode ivHex) <> 16%nat ->
        TokenStore.decrypt env (ivHex ++ String ":" rest) = None).
Proof.
  split.
  - intros text Hl. unfold TokenStore.decrypt.
    rewrite split_whole by exact Hl. reflexivity.
  - intros ivHex rest Hl Hlen. unfold TokenStore.decrypt.
    rewrite split_first by exact Hl.
    destruct (TokenStore.split ":" rest) as [|encrypted more] eqn:Hs.
    + exfalso. exact (split_not_nil _ _ Hs).
    + apply Nat.eqb_neq in Hlen. rewrite Hlen. reflexivity.
Qed.

Lemma decrypt_malformed_witness :
  TokenStore.decrypt Scenario.quiet "6c41542d31" = None
  /\ TokenStore.decrypt Scenario.quiet "2a2a:6c41542d31" = None.
Proof.
  destruct (decrypt_malformed Scenario.quiet) as [H1 H2].
  split.
  - apply H1. reflexivity.
  - apply (H2 "2a2a" "6c41542d31"); [reflexivity | vm_compute; discriminate].
Defined.

(** X10.  A record saved by the store of one base URL does not load in the
    store of another, which also reports it expired. *)
Theorem other_base_url_sees_nothing
    (env : Env) (base other : string) (t : StoredTokens) (w : World) :
  base <> other ->
  TokenStore.loadTokens env other (TokenStore.saveTokens env base t w) = None
  /\ TokenStore.isAccessTokenExpired env other (TokenStore.saveTokens env base t w) = true.
Proof.
  intros Hne.
  assert (Hl : TokenStore.loadTokens env other (TokenStore.saveTokens env base t w) = None).
  { destruct (file_saveTokens env base t w) as (a & r & w2 & _ & _ & Hs).
    rewrite Hs. unfold TokenStore.loadTokens.
    cbn [file set_file version baseUrl].
    apply String.eqb_neq in Hne. rewrite Hne.
    rewrite orb_true_r. reflexivity. }
  split; [exact Hl|].
  unfold TokenStore.isAccessTokenExpired. rewrite Hl. reflexivity.
Qed.

Lemma other_base_url_sees_nothing_witness :
  TokenStore.loadTokens Scenario.quiet "https://staging.reaudit.io" Scenario.with_sample
  = None.
Proof.
  apply (other_base_url_sees_nothing Scenario.quiet Scenario.site
           "https://staging.reaudit.io" Scenario.sample Scenario.blank).
  discriminate.
Defined.

(** X11.  Expiry only depends on the file and the clock, and does not go
    back: a token expired at one time is expired at every later time. *)
Theorem expired_stays_expired (env : Env) (base : string) (w : World) (later : Z) :
  clock w <= later ->
  TokenStore.isAccessTokenExpired env base w = true ->
  TokenStore.isAccessTokenExpired env base (set_clock later w) = true.
Proof.
  intros Hle. unfold TokenStore.isAccessTokenExpired.
  change (TokenStore.loadTokens env base (set_clock later w))
    with (TokenStore.loadTokens env base w).
  destruct (TokenStore.loadTokens env base w) as [t|]; [|reflexivity].
  cbn [clock set_clock]. rewrite !Z.geb_le. lia.
Qed.

Lemma expired_stays_expired_witness :
  TokenStore.isAccessTokenExpired Scenario.quiet Scenario.site
    (set_clock 1800000 Scenario.with_sample) = true.
Proof.
  apply (expired_stays_expired Scenario.quiet Scenario.site Scenario.with_sample 1800000).
  - cbn. lia.
  - reflexivity.
Defined.

(** ** oauth-client.ts *)

(** X12.  A callback with the attempt's state and no error, followed by a
    successful exchange: the code and the verifier (not the challenge) are
    what was posted, the attempt resolves with the access token, the record
    of the response is stored, the callback is answered 200 and the
    listener is closed once. *)
Theorem authenticate_success_run
    (env : Env) (base : string) (att : OAuthClient.Attempt) (req : Callback)
    (w : World) (elapsed : Z) (resp : TokenResponse) :
  pathname req = "/callback" ->
  truthy_str (q_error req) = false ->
  OAuthClient.state_differs (q_state req) (OAuthClient.state att) = false ->
  token_endpoint env (length (token_log w)) = (elapsed, Resolved resp) ->
  let s := OAuthClient.auth_run env base att [Request req; ExchangeSettles]
             (OAuthClient.started, w) in
  OAuthClient.promise (fst s) = Return (access_token resp)
  /\ token_log (snd s)
     = (token_log w ++ [AuthorizationCode (q_code req) (OAuthClient.codeVerifier att)])%list
  /\ OAuthClient.close_calls (fst s) = 1%nat
  /\ OAuthClient.listening (fst s) = false
  /\ OAuthClient.replies (fst s) = [200]
  /\ (cipher_sound env ->
      TokenStore.loadTokens env base (snd s)
      = Some (OAuthClient.recordOf (clock w + elapsed) resp)).
Proof.
  intros Hp He Hs Hep s. subst s.
  unfold OAuthClient.auth_run. cbn [fold_left OAuthClient.auth_step].
  unfold OAuthClient.on_request. rewrite Hp, He, Hs, String.eqb_refl.
  unfold OAuthClient.on_exchange_settled.
  cbn [OAuthClient.pending OAuthClient.set_pending OAuthClient.started app].
  rewrite Hep.
  repeat split.
  intros Hc. cbn [snd]. apply load_after_save. exact Hc.
Qed.

Lemma authenticate_success_run_witness :
  let env := Scenario.mk_env "laptop"
               (fun _ => (40, Resolved Scenario.fresh_response))
               Scenario.no_api Scenario.no_script in
  let att := {| OAuthClient.codeVerifier := "v"; OAuthClient.state := "5f3a" |} in
  let ok := {| pathname := "/callback"; q_code := Some "c0de";
               q_state := Some "5f3a"; q_error := None |} in
  let s := OAuthClient.auth_run env Scenario.site att [Request ok; ExchangeSettles]
             (OAuthClient.started, Scenario.blank) in
  OAuthClient.promise (fst s) = Return "AT-2"
  /\ token_log (snd s) = [AuthorizationCode (Some "c0de") "v"]
  /\ TokenStore.loadTokens env Scenario.site (snd s)
     = Some {| accessToken := "AT-2"; Sys.refreshToken := "RT-2";
               expiresAt := 5300; scope := "full_access" |}.
Proof.
  intros env att ok s.
  destruct (authenticate_success_run env Scenario.site att ok Scenario.blank 40
              Scenario.fresh_response eq_refl eq_refl eq_refl eq_refl)
    as (H1 & H2 & _ & _ & _ & H6).
  split; [exact H1|]. split; [exact H2|].
  apply H6. apply toy_cipher_sound.
Defined.

(** X13.  A callback with an error parameter, received while the attempt is
    unsettled, rejects it with that error whatever the state parameter, is
    answered 400, closes the listener, and posts nothing. *)
Theorem callback_error_denies
    (env : Env) (base : string) (att : OAuthClient.Attempt) (req : Callback)
    (l : OAuthClient.Listener) (w : World) (err : string) :
  pathname req = "/callback" ->
  q_error req = Some err -> err <> EmptyString ->
  OAuthClient.promise l = Hang ->
  let s := OAuthClient.auth_step env base att (Request req) (l, w) in
  OAuthClient.promise (fst s) = Throw (StdError ("OAuth error: " ++ err))
  /\ OAuthClient.listening (fst s) = false
  /\ OAuthClient.close_calls (fst s) = S (OAuthClient.close_calls l)
  /\ OAuthClient.replies (fst s) = (OAuthClient.replies l ++ [400])%list
  /\ OAuthClient.pending (fst s) = OAuthClient.pending l
  /\ snd s = w.
Proof.
  intros Hp He Hne Hh s. subst s.
  cbn [OAuthClient.auth_step]. unfold OAuthClient.on_request.
  rewrite Hp, He, String.eqb_refl.
  destruct err as [|a r]; [congruence|].
  cbn [truthy_str or_lit fst snd].
  unfold OAuthClient.settle. cbn [OAuthClient.promise OAuthClient.close OAuthClient.reply].
  rewrite Hh. repeat split.
Qed.

Lemma callback_error_denies_witness :
  let att := {| OAuthClient.codeVerifier := "v"; OAuthClient.state := "5f3a" |} in
  let req := {| pathname := "/callback"; q_code := Some "c0de";
                q_state := Some "5f3a"; q_error := Some "server_error" |} in
  let s := OAuthClient.auth_step Scenario.quiet Scenario.site att (Request req)
             (OAuthClient.started, Scenario.blank) in
  OAuthClient.promise (fst s) = Throw (StdError "OAuth error: server_error")
  /\ snd s = Scenario.blank.
Proof.
  intros att req s.
  destruct (callback_error_denies Scenario.quiet Scenario.site att req
              OAuthClient.started Scenario.blank "server_error"
              eq_refl eq_refl ltac:(discriminate) eq_refl)
    as (H1 & _ & _ & _ & _ & H6).
  split; [exact H1 | exact H6].
Defined.

(** X14.  A callback with the attempt's state whose exchange is rejected:
    the attempt is rejected with the error of the exchange itself, the
    callback is answered 500, the listener is closed once, and the
    credentials file is left as it was. *)
Theorem authenticate_exchange_failure
    (env : Env) (base : string) (att : OAuthClient.Attempt) (req : Callback)
    (w : World) (elapsed : Z) (e : JsError) :
  pathname req = "/callback" ->
  truthy_str (q_error req) = false ->
  OAuthClient.state_differs (q_state req) (OAuthClient.state att) = false ->
  token_endpoint env (length (token_log w)) = (elapsed, Rejected e) ->
  let s := OAuthClient.auth_run env base att [Request req; ExchangeSettles]
             (OAuthClient.started, w) in
  OAuthClient.promise (fst s) = Throw e
  /\ file (snd s) = file w
  /\ OAuthClient.close_calls (fst s) = 1%nat
  /\ OAuthClient.listening (fst s) = false
  /\ OAuthClient.replies (fst s) = [500].
Proof.
  intros Hp He Hs Hep s. subst s.
  unfold OAuthClient.auth_run. cbn [fold_left OAuthClient.auth_step].
  unfold OAuthClient.on_request. rewrite Hp, He, Hs, String.eqb_refl.
  unfold OAuthClient.on_exchange_settled.
  cbn [OAuthClient.pending OAuthClient.set_pending OAuthClient.started app].
  rewrite Hep. repeat split.
Qed.

Lemma authenticate_exchange_failure_witness :
  let att := {| OAuthClient.codeVerifier := "v"; OAuthClient.state := "5f3a" |} in
  let ok := {| pathname := "/callback"; q_code := Some "c0de";
               q_state := Some "5f3a"; q_error := None |} in
  let s := OAuthClient.auth_run Scenario.quiet Scenario.site att
             [Request ok; ExchangeSettles] (OAuthClient.started, Scenario.with_sample) in
  OAuthClient.promise (fst s) = Throw (Axios "Network Error" None)
  /\ file (snd s) = file Scenario.with_sample.
Proof.
  intros att ok s.
  destruct (authenticate_exchange_failure Scenario.quiet Scenario.site att ok
              Scenario.with_sample 0 (Axios "Network Error" None)
              eq_refl eq_refl eq_refl eq_refl) as (H1 & H2 & _).
  split; [exact H1 | exact H2].
Defined.

Lemma stray_requests_ignored env base att (reqs : list Callback) :
  Forall (fun r => pathname r <> "/callback") reqs ->
  forall s, OAuthClient.auth_run env base att (map Request reqs) s = s.
Proof.
  induction 1 as [|r reqs Hr _ IH]; intros s; [reflexivity|].
  cbn [map OAuthClient.auth_run fold_left OAuthClient.auth_step].
  destruct s as [l w]. unfold OAuthClient.on_request.
  apply String.eqb_neq in Hr. rewrite Hr. apply IH.
Qed.

(** X15.  Requests to any path other than [/callback] change nothing and
    get no answer; when only such requests arrive before the timer fires,
    the attempt is rejected with "Authentication timeout", the listener
    closed once, and the world is as it was. *)
Theorem stray_requests_then_timeout
    (env : Env) (base : string) (att : OAuthClient.Attempt)
    (reqs : list Callback) (w : World) :
  Forall (fun r => pathname r <> "/callback") reqs ->
  OAuthClient.auth_run env base att (map Request reqs) (OAuthClient.started, w)
  = (OAuthClient.started, w)
  /\ let s := OAuthClient.auth_run env base att (map Request reqs ++ [TimerFires])
                (OAuthClient.started, w) in
     OAuthClient.promise (fst s) = Throw (StdError "Authentication timeout")
     /\ OAuthClient.replies (fst s) = []
     /\ OAuthClient.close_calls (fst s) = 1%nat
     /\ OAuthClient.listening (fst s) = false
     /\ snd s = w.
Proof.
  intros Hall. split.
  - apply stray_requests_ignored. exact Hall.
  - unfold OAuthClient.auth_run. rewrite fold_left_app.
    fold (OAuthClient.auth_run env base att (map Request reqs) (OAuthClient.started, w)).
    rewrite (stray_requests_ignored env base att reqs Hall).
    repeat split.
Qed.

Lemma stray_requests_then_timeout_witness :
  let att := {| OAuthClient.codeVerifier := "v"; OAuthClient.state := "5f3a" |} in
  let icon := {| pathname := "/favicon.ico"; q_code := None;
                 q_state := None; q_error := None |} in
  let s := OAuthClient.auth_run Scenario.quiet Scenario.site att
             [Request icon; TimerFires] (OAuthClient.started, Scenario.blank) in
  OAuthClient.promise (fst s) = Throw (StdError "Authentication timeout")
  /\ OAuthClient.replies (fst s) = [].
Proof.
  intros att icon s.
  destruct (stray_requests_then_timeout Scenario.quiet Scenario.site att [icon]
              Scenario.blank) as [_ (H1 & H2 & _)].
  - constructor; [discriminate | constructor].
  - split; [exact H1 | exact H2].
Defined.

Lemma auth_step_keeps_file env base att ev s :
  ev <> ExchangeSettles ->
  file (snd (OAuthClient.auth_step env base att ev s)) = file (snd s).
Proof.
  intros Hev. destruct s as [l w]. destruct ev as [req| |]; [| congruence |].
  - cbn [OAuthClient.auth_step]. unfold OAuthClient.on_request.
    destruct (String.eqb (pathname req) "/callback"); [|reflexivity].
    destruct (truthy_str (q_error req)); [reflexivity|].
    destruct (OAuthClient.state_differs (q_state req) (OAuthClient.state att));
      reflexivity.
  - cbn [OAuthClient.auth_step]. unfold OAuthClient.on_timeout.
    destruct (OAuthClient.timer_armed l); reflexivity.
Qed.

(** X16.  The interactive flow posts no refresh grant, sends no API request
    and waits for nothing; and as long as no exchange has come back, it
    leaves the credentials file as it was. *)
Theorem flow_leaves_alone (env : Env) (base : string) :
  (forall w,
     refreshes (token_log (snd (OAuthClient.authenticate env base w)))
     = refreshes (token_log w)
     /\ api_log (snd (OAuthClient.authenticate env base w)) = api_log w
     /\ sleeps (snd (OAuthClient.authenticate env base w)) = sleeps w)
  /\ (forall att evs s,
        Forall (fun ev => ev <> ExchangeSettles) evs ->
        file (snd (OAuthClient.auth_run env base att evs s)) = file (snd s)).
Proof.
  split.
  - intros w. apply authenticate_logs.
  - intros att evs. induction evs as [|ev evs IH]; intros s Hall; [reflexivity|].
    inversion Hall as [|? ? Hev Hrest]; subst.
    cbn [OAuthClient.auth_run fold_left].
    fold (OAuthClient.auth_run env base att evs (OAuthClient.auth_step env base att ev s)).
    rewrite (IH _ Hrest). apply auth_step_keeps_file. exact Hev.
Qed.

Lemma flow_leaves_alone_witness :
  let att := {| OAuthClient.codeVerifier := "v"; OAuthClient.state := "5f3a" |} in
  let ok := {| pathname := "/callback"; q_code := Some "c0de";
               q_state := Some "5f3a"; q_error := None |} in
  file (snd (OAuthClient.auth_run Scenario.quiet Scenario.site att
               [Request ok; TimerFires] (OAuthClient.started, Scenario.with_sample)))
  = file Scenario.with_sample.
Proof.
  intros att ok.
  destruct (flow_leaves_alone Scenario.quiet Scenario.site) as [_ H].
  apply (H att [Request ok; TimerFires] (OAuthClient.started, Scenario.with_sample)).
  repeat constructor; discriminate.
Defined.

(** X17.  One call of [getAccessToken] posts at most one refresh grant,
    sends no API request and waits for nothing, whatever the stored record
    and whatever the outside answers. *)
Theorem getAccessToken_one_refresh_at_most (env : Env) (base : string) (w : World) :
  let w' := snd (OAuthClient.getAccessToken env base w) in
  (refreshes (token_log w) <= refreshes (token_log w') <= S (refreshes (token_log w)))%nat
  /\ api_log w' = api_log w
  /\ sleeps w' = sleeps w.
Proof.
  intros w'. subst w'.
  destruct (getAccessToken_logs env base w) as [Hapi Hsl].
  split; [|split; assumption].
  unfold OAuthClient.getAccessToken.
  destruct (TokenStore.loadTokens env base w) as [t|].
  - destruct (TokenStore.isAccessTokenExpired env base w); cbn [negb snd]; [|lia].
    rewrite refreshToken_run. cbv zeta.
    destruct (snd (token_endpoint env (length (token_log w)))) as [resp|e].
    + cbn [snd]. destruct (saveTokens_logs env base
                  (OAuthClient.recordOf
                     (clock (set_clock (clock w + fst (token_endpoint env (length (token_log w))))
                               (set_token_log (token_log w ++ [RefreshGrant (Sys.refreshToken t)]) w)))
                     resp)
                  (set_clock (clock w + fst (token_endpoint env (length (token_log w))))
                     (set_token_log (token_log w ++ [RefreshGrant (Sys.refreshToken t)]) w)))
        as [Hl _].
      rewrite Hl. cbn [token_log set_clock set_token_log].
      rewrite refreshes_snoc. lia.
    + match goal with
      | |- context [OAuthClient.authenticate env base ?x] =>
          destruct (authenticate_logs env base x) as (H1 & _)
      end.
      rewrite H1. cbn [TokenStore.clearTokens token_log set_file set_clock set_token_log].
      rewrite refreshes_snoc. lia.
  - destruct (authenticate_logs env base w) as (H1 & _). rewrite H1. lia.
Qed.

(** X18.  After a successful refresh, the stored record is already expired
    exactly when the response's [expires_in] is at most 300 seconds; when
    it is longer, the next [getAccessToken] returns the new token and
    touches nothing. *)
Theorem refreshed_token_lifetime
    (env : Env) (base : string) (w : World) (t : StoredTokens)
    (elapsed : Z) (resp : TokenResponse) :
  cipher_sound env ->
  TokenStore.loadTokens env base w = Some t ->
  TokenStore.isAccessTokenExpired env base w = true ->
  token_endpoint env (length (token_log w)) = (elapsed, Resolved resp) ->
  let w2 := snd (OAuthClient.getAccessToken env base w) in
  (TokenStore.isAccessTokenExpired env base w2 = true <-> expires_in resp <= 300)
  /\ (300 < expires_in resp ->
      OAuthClient.getAccessToken env base w2 = (Return (access_token resp), w2)).
Proof.
  intros Hc Hload Hexp Hep w2.
  assert (Hw2 : w2 = TokenStore.saveTokens env base
                       (OAuthClient.recordOf (clock w + elapsed) resp)
                       (set_clock (clock w + elapsed)
                          (set_token_log (token_log w ++ [RefreshGrant (Sys.refreshToken t)]) w))).
  { subst w2. unfold OAuthClient.getAccessToken. rewrite Hload, Hexp. cbn [negb].
    rewrite refreshToken_run, Hep. reflexivity. }
  assert (Hl2 : TokenStore.loadTokens env base w2
                = Some (OAuthClient.recordOf (clock w + elapsed) resp)).
  { rewrite Hw2. apply load_after_save. exact Hc. }
  assert (Hck : clock w2 = clock w + elapsed) by (rewrite Hw2; reflexivity).
  assert (Hiff : TokenStore.isAccessTokenExpired env base w2 = true
                 <-> expires_in resp <= 300).
  { unfold TokenStore.isAccessTokenExpired. rewrite Hl2, Hck.
    cbn [expiresAt OAuthClient.recordOf]. rewrite Z.geb_le.
    pose proof (Z.div_mod (clock w + elapsed) 1000 ltac:(lia)) as Hdm.
    pose proof (Z.mod_pos_bound (clock w + elapsed) 1000 ltac:(lia)) as Hb.
    lia. }
  split; [exact Hiff|].
  intros Hlong. unfold OAuthClient.getAccessToken. rewrite Hl2.
  destruct (TokenStore.isAccessTokenExpired env base w2) eqn:E.
  - exfalso. destruct Hiff as [H1 _]. specialize (H1 eq_refl). lia.
  - reflexivity.
Qed.

Lemma refreshed_token_lifetime_witness :
  let env := Scenario.mk_env "laptop"
               (fun _ => (40, Resolved Scenario.fresh_response))
               Scenario.no_api Scenario.no_script in
  let w2 := snd (OAuthClient.getAccessToken env Scenario.site
                   (set_clock 1701000 Scenario.with_sample)) in
  OAuthClient.getAccessToken env Scenario.site w2 = (Return "AT-2", w2).
Proof.
  intros env w2.
  destruct (refreshed_token_lifetime env Scenario.site
              (set_clock 1701000 Scenario.with_sample) Scenario.sample 40
              Scenario.fresh_response (toy_cipher_sound _ _ _ _)
              eq_refl eq_refl eq_refl) as [_ H].
  apply H. cbn. lia.
Defined.

(** X19.  [logout] never throws and always ends with no stored
    credentials, whether the revocation succeeds or fails; it posts the
    stored refresh token for revocation when a record loads and nothing
    otherwise; afterwards [isAuthenticated] is false and [getAccessToken]
    goes straight to the interactive flow. *)
Theorem logout_clears (env : Env) (base : string)
    (revoke : Z * HttpResult unit) (w : World) :
  let '(r, w', posted) := OAuthClient.logout env base revoke w in
  r = Return tt
  /\ file w' = None
  /\ OAuthClient.isAuthenticated env base w' = false
  /\ posted = match TokenStore.loadTokens env base w with
              | Some t => [Sys.refreshToken t]
              | None => []
              end
  /\ token_log w' = token_log w
  /\ OAuthClient.getAccessToken env base w' = OAuthClient.authenticate env base w'.
Proof.
  unfold OAuthClient.logout.
  destruct (TokenStore.loadTokens env base w) as [t|];
    [destruct (snd revoke)|]; repeat split.
Qed.

(** ** api-client.ts *)

Section FacadeMore.
Import ErrorHandler OAuthClient ApiClient.
Variable env : Env.
Variable base : string.

Lemma sends_refl w : sends_at_most 0 w w.
Proof. exists []. rewrite app_nil_r. repeat split. cbn. lia. Qed.

Lemma sends_trans n m w1 w2 w3 :
  sends_at_most n w1 w2 -> sends_at_most m w2 w3 -> sends_at_most (n + m) w1 w3.
Proof.
  intros (x & Hx & Lx & Sx) (y & Hy & Ly & Sy).
  exists (x ++ y)%list. rewrite Hy, Hx, app_assoc, length_app.
  repeat split; [lia | congruence].
Qed.

Lemma sends_weaken n m w w' : (n <= m)%nat -> sends_at_most n w w' -> sends_at_most m w w'.
Proof. intros Hle (x & Hx & Lx & Sx). exists x. repeat split; [assumption | lia | assumption]. Qed.

Lemma getAccessToken_sends w : sends_at_most 0 w (snd (getAccessToken env base w)).
Proof.
  destruct (getAccessToken_logs env base w) as [Ha Hs].
  exists []. rewrite app_nil_r. repeat split; [assumption | cbn; lia | assumption].
Qed.

Lemma http_sends bearer w : sends_at_most 1 w (snd (http env bearer w)).
Proof.
  rewrite http_run. cbv zeta.
  destruct (snd (api_endpoint env (length (api_log w)))); exists [bearer];
    repeat split; cbn; lia.
Qed.

(** One run of the operation sends at most two API requests. *)
Lemma attempt_sends w : sends_at_most 2 w (snd (attempt env base w)).
Proof.
  unfold attempt, bind at 1.
  pose proof (getAccessToken_sends w) as H0.
  destruct (getAccessToken env base w) as [[tok|e|] w0]; cbn [snd] in *;
    try (apply (sends_weaken 0 2); [lia | exact H0]).
  unfold try_catch, bind at 1.
  pose proof (http_sends tok w0) as H1.
  destruct (http env tok w0) as [[body|e|] w1]; cbn [snd] in *.
  - assert (H01 : sends_at_most 2 w w1)
      by (apply (sends_weaken (0 + 1) 2); [lia | exact (sends_trans _ _ _ _ _ H0 H1)]).
    destruct (negb (success body)); cbn; exact H01.
  - assert (H01 : sends_at_most 1 w w1)
      by (exact (sends_trans 0 1 _ _ _ H0 H1)).
    unfold on_failure.
    destruct e as [msg response|msg|text];
      try (cbn; apply (sends_weaken 1 2); [lia | exact H01]).
    destruct (is401 response);
      [|cbn; apply (sends_weaken 1 2); [lia | exact H01]].
    unfold bind at 1.
    pose proof (getAccessToken_sends w1) as H2.
    destruct (getAccessToken env base w1) as [[tok2|e2|] w2]; cbn [snd] in *;
      try (apply (sends_weaken (1 + 0) 2); [lia | exact (sends_trans _ _ _ _ _ H01 H2)]).
    unfold bind.
    pose proof (http_sends tok2 w2) as H3.
    assert (H03 : sends_at_most 2 w (snd (http env tok2 w2))).
    { apply (sends_weaken (1 + 0 + 1) 2); [lia|].
      exact (sends_trans _ _ _ _ _ (sends_trans _ _ _ _ _ H01 H2) H3). }
    destruct (http env tok2 w2) as [[body2|e3|] w3]; cbn [snd] in *;
      try exact H03.
    destruct (negb (success body2)); cbn; exact H03.
  - apply (sends_weaken (0 + 1) 2); [lia | exact (sends_trans _ _ _ _ _ H0 H1)].
Qed.

Lemma retryDelay_keeps attempt cfg le w :
  api_log (snd (retryDelay env attempt cfg le w)) = api_log w
  /\ sleeps (snd (retryDelay env attempt cfg le w)) = sleeps w.
Proof.
  unfold retryDelay, random.
  destruct (retryAfter le) as [[|s]|]; try (split; reflexivity).
  destruct (s =? 0); split; reflexivity.
Qed.

(** The loop of [withRetry] around an operation that sends at most [k]
    requests per run and does not wait itself. *)
Lemma retry_loop_sends T (fn : Async T) cfg (k : nat) :
  (forall w, sends_at_most k w (snd (fn w))) ->
  forall fuel attempt lastError w r w' calls,
    attempt + Z.of_nat fuel = maxRetries cfg + 1 ->
    (0 < fuel)%nat ->
    retry_loop env fn cfg fuel attempt lastError w = (r, w', calls) ->
    exists extra,
      api_log w' = (api_log w ++ extra)%list
      /\ (length extra <= k * fuel)%nat
      /\ (length (sleeps w') < length (sleeps w) + fuel)%nat.
Proof.
  intros Hfn.
  induction fuel as [|fuel IH]; intros attempt lastError w r w' calls Hb Hpos Hrun.
  - lia.
  - cbn [retry_loop] in Hrun.
    destruct (Hfn w) as (x & Hx & Lx & Sx).
    destruct (fn w) as [[v|error|] w1] eqn:Hf; cbn [snd] in *.
    + inversion Hrun; subst. exists x. rewrite Sx. repeat split; [assumption| nia | lia].
    + destruct (givesUp cfg attempt (parseError env (clock w1) error)) eqn:Hg.
      * inversion Hrun; subst. exists x. rewrite Sx.
        repeat split; [assumption| nia | lia].
      * pose proof (retryDelay_keeps attempt cfg (parseError env (clock w1) error) w1)
          as [Ka Ks].
        destruct (retryDelay env attempt cfg (parseError env (clock w1) error) w1)
          as [delay w2]. cbn [snd] in Ka, Ks.
        destruct (retry_loop env fn cfg fuel (attempt + 1)
                    (Some (parseError env (clock w1) error))
                    (snd (sleep delay w2))) as [[r0 w4] calls0] eqn:Hrec.
        inversion Hrun; subst.
        assert (Hne : attempt <> maxRetries cfg).
        { unfold givesUp in Hg. apply orb_false_iff in Hg as [_ Hg].
          apply Z.eqb_neq in Hg. exact Hg. }
        assert (Hb' : attempt + 1 + Z.of_nat fuel = maxRetries cfg + 1) by lia.
        assert (Hf' : (0 < fuel)%nat) by lia.
        destruct (IH _ _ _ _ _ _ Hb' Hf' Hrec) as (y & Hy & Ly & Sy).
        cbn [sleep snd api_log sleeps set_clock set_sleeps] in Hy, Sy.
        rewrite length_app in Sy. cbn [length] in Sy.
        exists (x ++ y)%list. rewrite Hy, Ka, Hx, app_assoc, length_app.
        repeat split; [nia | rewrite Ks, Sx in Sy; lia].
    + inversion Hrun; subst. exists x. rewrite Sx. repeat split; [assumption| nia | lia].
Qed.

Lemma withRetry_returns T (fn : Async T) w v w1 :
  fn w = (Return v, w1) ->
  withRetry_counted env fn no_override w = (Return v, w1, [Return v]).
Proof.
  intros Hfn. unfold withRetry_counted.
  change (Z.to_nat (maxRetries (merge no_override) + 1)) with 4%nat.
  cbn [retry_loop]. rewrite Hfn. reflexivity.
Qed.
End FacadeMore.

(** X20.  Whatever the stored credentials and whatever the servers answer,
    one facade request runs the operation at most 4 times, sends at most 8
    API requests, and waits at most 3 times. *)
Theorem request_effort_bounded (env : Env) (base : string) (w : World)
    (r : Outcome (option string)) (w' : World)
    (calls : list (Outcome (option string))) :
  ApiClient.request_counted env base w = (r, w', calls) ->
  (length calls <= 4)%nat
  /\ (exists extra, api_log w' = (api_log w ++ extra)%list /\ (length extra <= 8)%nat)
  /\ (length (sleeps w') <= length (sleeps w) + 3)%nat.
Proof.
  intros Hrun. unfold ApiClient.request_counted, ErrorHandler.withRetry_counted in Hrun.
  change (Z.to_nat (ErrorHandler.maxRetries (ErrorHandler.merge ErrorHandler.no_override) + 1))
    with 4%nat in Hrun.
  destruct (retry_loop_spec env _ (ApiClient.attempt env base)
              (ErrorHandler.merge ErrorHandler.no_override) 4 0 None w r w' calls
              eq_refl ltac:(lia) Hrun) as [Hlen _].
  destruct (retry_loop_sends env _ (ApiClient.attempt env base)
              (ErrorHandler.merge ErrorHandler.no_override) 2
              (attempt_sends env base) 4 0 None w r w' calls
              eq_refl ltac:(lia) Hrun) as (x & Hx & Lx & Sx).
  split; [exact Hlen|]. split; [exists x; split; [exact Hx | lia] | lia].
Qed.

Lemma request_effort_bounded_witness :
  let env := Scenario.mk_env "laptop" Scenario.no_tokens
               (fun _ => (25, Rejected (Scenario.status_only 401)))
               Scenario.no_script in
  exists r w' calls,
    ApiClient.request_counted env Scenario.site (set_clock 1000000 Scenario.with_sample)
    = (r, w', calls)
    /\ (length calls <= 4)%nat
    /\ (length (sleeps w') <= 0 + 3)%nat.
Proof.
  intro env.
  destruct (ApiClient.request_counted env Scenario.site
              (set_clock 1000000 Scenario.with_sample)) as [[r w'] calls] eqn:Hrun.
  destruct (request_effort_bounded env Scenario.site _ r w' calls Hrun)
    as (H1 & _ & H3).
  exists r, w', calls. split; [reflexivity|]. split; [exact H1 | exact H3].
Defined.

(** X21.  When the token is there and the first answer is a body with
    [success] true, the request returns its [data] after one run, one API
    request carrying that token, and no wait. *)
Theorem request_success
    (env : Env) (base : string) (w : World) (tok : string) (w0 : World)
    (elapsed : Z) (body : APIResponse) :
  OAuthClient.getAccessToken env base w = (Return tok, w0) ->
  api_endpoint env (length (api_log w0)) = (elapsed, Resolved body) ->
  success body = true ->
  let w1 := set_clock (clock w0 + elapsed) (set_api_log (api_log w0 ++ [tok]) w0) in
  ApiClient.request_counted env base w = (Return (payload body), w1, [Return (payload body)])
  /\ api_log w1 = (api_log w ++ [tok])%list
  /\ sleeps w1 = sleeps w.
Proof.
  intros Hget Hep Hok w1.
  pose proof (getAccessToken_logs env base w) as [Hapi Hsl].
  rewrite Hget in Hapi, Hsl. cbn [snd] in Hapi, Hsl.
  split; [|split].
  - unfold ApiClient.request_counted. apply withRetry_returns.
    unfold ApiClient.attempt, bind at 1. rewrite Hget.
    unfold try_catch, bind. rewrite http_run, Hep. cbn [fst snd].
    rewrite Hok. reflexivity.
  - subst w1. cbn [api_log set_clock set_api_log]. rewrite Hapi. reflexivity.
  - subst w1. cbn [sleeps set_clock set_api_log]. exact Hsl.
Qed.

Lemma request_success_witness :
  let body := {| success := true; payload := Some "{}";
                 api_error := None; api_error_description := None |} in
  let env := Scenario.mk_env "laptop" Scenario.no_tokens
               (fun _ => (25, Resolved body)) Scenario.no_script in
  exists w1,
    ApiClient.request_counted env Scenario.site (set_clock 1000000 Scenario.with_sample)
    = (Return (Some "{}"), w1, [Return (Some "{}")])
    /\ api_log w1 = ["AT-1"].
Proof.
  intros body env.
  destruct (request_success env Scenario.site (set_clock 1000000 Scenario.with_sample)
              "AT-1" (set_clock 1000000 Scenario.with_sample) 25 body
              eq_refl eq_refl eq_refl) as (H1 & H2 & _).
  eexists. split; [exact H1 | exact H2].
Defined.

(** X22.  An answer with HTTP success but [success] false makes the request
    throw a plain [Error] whose message is the body's [error_description],
    else its [error], else "API request failed"; it is not retried. *)
Theorem request_unsuccessful_body
    (env : Env) (base : string) (w : World) (tok : string) (w0 : World)
    (elapsed : Z) (body : APIResponse) :
  OAuthClient.getAccessToken env base w = (Return tok, w0) ->
  api_endpoint env (length (api_log w0)) = (elapsed, Resolved body) ->
  success body = false ->
  let w1 := set_clock (clock w0 + elapsed) (set_api_log (api_log w0 ++ [tok]) w0) in
  let e := StdError (or_lit (or_str (api_error_description body) (api_error body))
                            "API request failed") in
  ApiClient.request_counted env base w = (Throw e, w1, [Throw e])
  /\ api_log w1 = (api_log w ++ [tok])%list.
Proof.
  intros Hget Hep Hok w1 e.
  pose proof (getAccessToken_logs env base w) as [Hapi _].
  rewrite Hget in Hapi. cbn [snd] in Hapi.
  split.
  - unfold ApiClient.request_counted. apply withRetry_gives_up; [|reflexivity].
    unfold ApiClient.attempt, bind at 1. rewrite Hget.
    unfold try_catch, bind. rewrite http_run, Hep. cbn [fst snd].
    rewrite Hok. reflexivity.
  - subst w1. cbn [api_log set_clock set_api_log]. rewrite Hapi. reflexivity.
Qed.

Lemma request_unsuccessful_body_witness :
  let body := {| success := false; payload := None;
                 api_error := Some "quota_exceeded"; api_error_description := None |} in
  let env := Scenario.mk_env "laptop" Scenario.no_tokens
               (fun _ => (25, Resolved body)) Scenario.no_script in
  exists w1,
    ApiClient.request_counted env Scenario.site (set_clock 1000000 Scenario.with_sample)
    = (Throw (StdError "quota_exceeded"), w1, [Throw (StdError "quota_exceeded")]).
Proof.
  intros body env.
  destruct (request_unsuccessful_body env Scenario.site
              (set_clock 1000000 Scenario.with_sample)
              "AT-1" (set_clock 1000000 Scenario.with_sample) 25 body
              eq_refl eq_refl eq_refl) as (H1 & _).
  eexists. exact H1.
Defined.

(** X23.  A 401 on the first call followed by a replay that is answered
    with [success] true: the request returns the replay's [data] after one
    run of the operation and two API requests, the second with the token
    that the second [getAccessToken] gave. *)
Theorem request_replay_success
    (env : Env) (base : string) (w : World) (tok : string) (w0 : World)
    (el1 : Z) (msg1 : string) (resp1 : option AxiosResponse)
    (tok2 : string) (w2 : World) (el2 : Z) (body : APIResponse) :
  OAuthClient.getAccessToken env base w = (Return tok, w0) ->
  api_endpoint env (length (api_log w0)) = (el1, Rejected (Axios msg1 resp1)) ->
  ApiClient.is401 resp1 = true ->
  OAuthClient.getAccessToken env base
    (set_clock (clock w0 + el1) (set_api_log (api_log w0 ++ [tok]) w0))
  = (Return tok2, w2) ->
  api_endpoint env (length (api_log w2)) = (el2, Resolved body) ->
  success body = true ->
  let w3 := set_clock (clock w2 + el2) (set_api_log (api_log w2 ++ [tok2]) w2) in
  ApiClient.request_counted env base w = (Return (payload body), w3, [Return (payload body)])
  /\ api_log w3 = (api_log w ++ [tok; tok2])%list.
Proof.
  intros Hget Hep H401 Hget2 Hep2 Hok w3.
  pose proof (getAccessToken_logs env base w) as [Hapi _].
  rewrite Hget in Hapi. cbn [snd] in Hapi.
  pose proof (getAccessToken_logs env base
                (set_clock (clock w0 + el1) (set_api_log (api_log w0 ++ [tok]) w0)))
    as [Hapi2 _].
  rewrite Hget2 in Hapi2. cbn [snd api_log set_clock set_api_log] in Hapi2.
  split.
  - unfold ApiClient.request_counted. apply withRetry_returns.
    unfold ApiClient.attempt, bind at 1. rewrite Hget.
    unfold try_catch, bind at 1. rewrite http_run, Hep. cbn [fst snd].
    unfold ApiClient.on_failure. rewrite H401.
    unfold bind at 1. rewrite Hget2.
    unfold bind. rewrite http_run, Hep2. cbn [fst snd]. rewrite Hok. reflexivity.
  - subst w3. cbn [api_log set_clock set_api_log].
    rewrite Hapi2, Hapi, <- app_assoc. reflexivity.
Qed.

(** The server rejects the stored token once, then accepts it. *)
Lemma request_replay_success_witness :
  let body := {| success := true; payload := Some "{}";
                 api_error := None; api_error_description := None |} in
  let env := Scenario.mk_env "laptop" Scenario.no_tokens
               (fun k => match k with
                         | O => (25, Rejected (Scenario.status_only 401))
                         | _ => (25, Resolved body)
                         end) Scenario.no_script in
  exists w3,
    ApiClient.request_counted env Scenario.site (set_clock 1000000 Scenario.with_sample)
    = (Return (Some "{}"), w3, [Return (Some "{}")])
    /\ api_log w3 = ["AT-1"; "AT-1"].
Proof.
  intros body env.
  destruct (request_replay_success env Scenario.site
              (set_clock 1000000 Scenario.with_sample) "AT-1"
              (set_clock 1000000 Scenario.with_sample) 25 "Request failed"
              (Some {| status := 401; retry_after := None; data := None |})
              "AT-1"
              (set_clock 1000025 (set_api_log ["AT-1"] (set_clock 1000000 Scenario.with_sample)))
              25 body eq_refl eq_refl eq_refl eq_refl eq_refl eq_refl) as (H1 & H2).
  eexists. split; [exact H1 | exact H2].
Defined.

(** X24.  When [getAccessToken] throws a plain [Error] (a denied or timed
    out flow, a state mismatch), the request throws that same error after
    one run, without sending any API request. *)
Theorem request_without_token
    (env : Env) (base : string) (w : World) (msg : string) (w0 : World) :
  OAuthClient.getAccessToken env base w = (Throw (StdError msg), w0) ->
  ApiClient.request_counted env base w
  = (Throw (StdError msg), w0, [Throw (StdError msg)])
  /\ api_log w0 = api_log w.
Proof.
  intros Hget.
  pose proof (getAccessToken_logs env base w) as [Hapi _].
  rewrite Hget in Hapi. cbn [snd] in Hapi.
  split; [|exact Hapi].
  unfold ApiClient.request_counted. apply withRetry_gives_up; [|reflexivity].
  unfold ApiClient.attempt, bind. rewrite Hget. reflexivity.
Qed.

(** No credentials, and nobody answers the browser: the timer ends the
    flow. *)
Lemma request_without_token_witness :
  let env := Scenario.mk_env "laptop" Scenario.no_tokens Scenario.no_api
               (fun _ => [TimerFires]) in
  exists w0,
    ApiClient.request_counted env Scenario.site Scenario.blank
    = (Throw (StdError "Authentication timeout"), w0,
       [Throw (StdError "Authentication timeout")])
    /\ api_log w0 = [].
Proof.
  intro env.
  destruct (OAuthClient.getAccessToken env Scenario.site Scenario.blank)
    as [r w0] eqn:Hget.
  assert (Hr : r = Throw (StdError "Authentication timeout"))
    by (vm_compute in Hget; inversion Hget; reflexivity).
  subst r.
  destruct (request_without_token env Scenario.site Scenario.blank
              "Authentication timeout" w0 Hget) as [H1 H2].
  exists w0. split; [exact H1 | exact H2].
Defined.

Section RetrySteps.
Import ErrorHandler.
Variable env : Env.
Variable T : Type.
Variable fn : Async T.
Variable cfg : RetryConfig.

(** One turn of the loop that does not give up. *)
Lemma retry_loop_retries fuel attempt lastError w e w1 :
  fn w = (Throw e, w1) ->
  givesUp cfg attempt (parseError env (clock w1) e) = false ->
  retry_loop env fn cfg (S fuel) attempt lastError w
  = let (delay, w2) := retryDelay env attempt cfg (parseError env (clock w1) e) w1 in
    let '(r, w4, calls) :=
      retry_loop env fn cfg fuel (attempt + 1)
        (Some (parseError env (clock w1) e)) (snd (sleep delay w2)) in
    (r, w4, Throw e :: calls).
Proof. intros Hfn Hg. cbn [retry_loop]. rewrite Hfn, Hg. reflexivity. Qed.

(** Around an operation that does not wait itself, the loop only adds to
    the waits. *)
Lemma retry_loop_sleeps_grow (k : nat) :
  (forall w, sends_at_most k w (snd (fn w))) ->
  forall fuel attempt lastError w r w' calls,
    retry_loop env fn cfg fuel attempt lastError w = (r, w', calls) ->
    (length (sleeps w) <= length (sleeps w'))%nat.
Proof.
  intros Hfn.
  induction fuel as [|fuel IH]; intros attempt lastError w r w' calls Hrun.
  - inversion Hrun; subst. lia.
  - cbn [retry_loop] in Hrun.
    destruct (Hfn w) as (y & _ & _ & Sy).
    destruct (fn w) as [[v|error|] w1]; cbn [snd] in Sy.
    + inversion Hrun; subst. rewrite Sy. lia.
    + destruct (givesUp cfg attempt (parseError env (clock w1) error)).
      * inversion Hrun; subst. rewrite Sy. lia.
      * pose proof (retryDelay_keeps env attempt cfg
                      (parseError env (clock w1) error) w1) as [_ Kb].
        destruct (retryDelay env attempt cfg (parseError env (clock w1) error) w1)
          as [delay w2]. cbn [snd] in Kb.
        destruct (retry_loop env fn cfg fuel (attempt + 1)
                    (Some (parseError env (clock w1) error))
                    (snd (sleep delay w2))) as [[r0 w4] calls0] eqn:Hrec.
        inversion Hrun; subst.
        specialize (IH _ _ _ _ _ _ Hrec).
        cbn [sleep snd sleeps set_clock set_sleeps] in IH.
        rewrite length_app in IH. cbn [length] in IH.
        rewrite Kb, Sy in IH. lia.
    + inversion Hrun; subst. rewrite Sy. lia.
Qed.
End RetrySteps.

(** X25.  The replay after a 401 is outside the inner [try]: when it fails
    with a status that [parseError] marks retryable (429, 5xx), the axios
    error reaches [withRetry] as it is, and the operation is run again
    after a wait. *)
Theorem replay_retryable_failure_is_retried
    (env : Env) (base : string) (w : World) (tok : string) (w0 : World)
    (el1 : Z) (msg1 : string) (resp1 : option AxiosResponse)
    (tok2 : string) (w2 : World) (el2 : Z) (msg2 : string) (r2 : AxiosResponse)
    (r : Outcome (option string)) (w' : World)
    (calls : list (Outcome (option string))) :
  OAuthClient.getAccessToken env base w = (Return tok, w0) ->
  api_endpoint env (length (api_log w0)) = (el1, Rejected (Axios msg1 resp1)) ->
  ApiClient.is401 resp1 = true ->
  OAuthClient.getAccessToken env base
    (set_clock (clock w0 + el1) (set_api_log (api_log w0 ++ [tok]) w0))
  = (Return tok2, w2) ->
  api_endpoint env (length (api_log w2)) = (el2, Rejected (Axios msg2 (Some r2))) ->
  ErrorHandler.isRetryable
    (ErrorHandler.categorizeHttpError (if status r2 =? 0 then 500 else status r2)) = true ->
  ApiClient.request_counted env base w = (r, w', calls) ->
  hd Hang calls = Throw (Axios msg2 (Some r2))
  /\ (2 <= length calls)%nat
  /\ (length (sleeps w) < length (sleeps w'))%nat.
Proof.
  intros Hget Hep H401 Hget2 Hep2 Hretry Hrun.
  pose proof (attempt_replay_401 env base w tok w0 el1 msg1 resp1 tok2 w2 el2 msg2
                (Some r2) Hget Hep H401 Hget2 Hep2) as Hatt.
  pose proof (getAccessToken_logs env base w) as [_ Hs0].
  rewrite Hget in Hs0. cbn [snd] in Hs0.
  pose proof (getAccessToken_logs env base
                (set_clock (clock w0 + el1) (set_api_log (api_log w0 ++ [tok]) w0)))
    as [_ Hs2].
  rewrite Hget2 in Hs2. cbn [snd sleeps set_clock set_api_log] in Hs2.
  unfold ApiClient.request_counted, ErrorHandler.withRetry_counted in Hrun.
  change (Z.to_nat (ErrorHandler.maxRetries (ErrorHandler.merge ErrorHandler.no_override) + 1))
    with 4%nat in Hrun.
  set (w3 := set_clock (clock w2 + el2) (set_api_log (api_log w2 ++ [tok2]) w2)) in *.
  set (le := ErrorHandler.parseError env (clock w3) (Axios msg2 (Some r2))) in *.
  assert (Hg : ErrorHandler.givesUp (ErrorHandler.merge ErrorHandler.no_override) 0 le = false).
  { unfold ErrorHandler.givesUp. subst le.
    cbn [ErrorHandler.parseError ErrorHandler.retryable ErrorHandler.category].
    rewrite Hretry. cbn [negb orb].
    change (ErrorHandler.includes
              (ErrorHandler.retryableCategories (ErrorHandler.merge ErrorHandler.no_override)))
      with ErrorHandler.isRetryable.
    rewrite Hretry. reflexivity. }
  rewrite (retry_loop_retries env _ (ApiClient.attempt env base)
             (ErrorHandler.merge ErrorHandler.no_override) 3 0 None w _ _ Hatt Hg) in Hrun.
  fold le in Hrun.
  pose proof (retryDelay_keeps env 0 (ErrorHandler.merge ErrorHandler.no_override) le w3)
    as [_ Ks].
  destruct (ErrorHandler.retryDelay env 0 (ErrorHandler.merge ErrorHandler.no_override) le w3)
    as [delay w4]. cbn [snd] in Ks.
  destruct (ErrorHandler.retry_loop env (ApiClient.attempt env base)
              (ErrorHandler.merge ErrorHandler.no_override) 3 (0 + 1) (Some le)
              (snd (sleep delay w4))) as [[r0 w5] calls0] eqn:Hrec.
  inversion Hrun; subst.
  destruct (retry_loop_spec env _ (ApiClient.attempt env base)
              (ErrorHandler.merge ErrorHandler.no_override) 3 (0 + 1) (Some le)
              (snd (sleep delay w4)) r w' calls0 eq_refl ltac:(lia) Hrec)
    as [_ [Hnil _]].
  pose proof (retry_loop_sleeps_grow env _ (ApiClient.attempt env base)
                (ErrorHandler.merge ErrorHandler.no_override) 2
                (attempt_sends env base) 3 (0 + 1) (Some le)
                (snd (sleep delay w4)) r w' calls0 Hrec) as Hmono.
  split; [reflexivity|]. split.
  - destruct calls0; [congruence | cbn; lia].
  - cbn [sleep snd sleeps set_clock set_sleeps] in Hmono.
    rewrite length_app in Hmono. cbn [length] in Hmono.
    rewrite Ks in Hmono. subst w3. cbn [sleeps set_clock set_api_log] in Hmono.
    rewrite Hs2, Hs0 in Hmono. lia.
Qed.

(** The stored token is rejected once, then the server answers 503. *)
Lemma replay_retryable_failure_is_retried_witness :
  let env := Scenario.mk_env "laptop" Scenario.no_tokens
               (fun k => match k with
                         | O => (25, Rejected (Scenario.status_only 401))
                         | _ => (25, Rejected (Scenario.status_only 503))
                         end) Scenario.no_script in
  exists r w' calls,
    ApiClient.request_counted env Scenario.site (set_clock 1000000 Scenario.with_sample)
    = (r, w', calls)
    /\ (2 <= length calls)%nat
    /\ (0 < length (sleeps w'))%nat.
Proof.
  intro env.
  destruct (ApiClient.request_counted env Scenario.site
              (set_clock 1000000 Scenario.with_sample)) as [[r w'] calls] eqn:Hrun.
  destruct (replay_retryable_failure_is_retried env Scenario.site
              (set_clock 1000000 Scenario.with_sample) "AT-1"
              (set_clock 1000000 Scenario.with_sample) 25 "Request failed"
              (Some {| status := 401; retry_after := None; data := None |})
              "AT-1"
              (set_clock 1000025 (set_api_log ["AT-1"] (set_clock 1000000 Scenario.with_sample)))
              25 "Request failed"
              {| status := 503; retry_after := None; data := None |}
              r w' calls eq_refl eq_refl eq_refl eq_refl eq_refl eq_refl Hrun)
    as (_ & H2 & H3).
  exists r, w', calls. split; [reflexivity|]. split; [exact H2 | exact H3].
Defined.

(** ** offline-mode.ts *)

Section OfflineFacts.
Import OfflineMode.
Variable home : string.

Lemma saveQueue_keeps p s :
  requestQueue (saveQueue p s) = requestQueue s
  /\ currentStatus (saveQueue p s) = currentStatus s
  /\ lastOnlineCheck (saveQueue p s) = lastOnlineCheck s.
Proof. unfold saveQueue. destruct (writable s); repeat split. Qed.

Lemma remove_first_none rid q :
  remove_first rid q = None <-> Forall (fun r => id r <> rid) q.
Proof.
  induction q as [|r q IH]; cbn [remove_first].
  - split; [constructor | reflexivity].
  - destruct (String.eqb_spec (id r) rid) as [E|N].
    + split; [discriminate|]. intros H. inversion H; subst. contradiction.
    + destruct (remove_first rid q) as [q'|].
      * split; [discriminate|]. intros H. inversion H as [|? ? _ Hq]; subst.
        apply IH in Hq. discriminate.
      * split; [|reflexivity]. intros _. constructor; [exact N|]. apply IH. reflexivity.
Qed.

Lemma remove_first_length rid q q' :
  remove_first rid q = Some q' -> S (length q') = length q.
Proof.
  revert q'. induction q as [|r q IH]; intros q'; cbn [remove_first]; [discriminate|].
  destruct (String.eqb (id r) rid).
  - intros H. inversion H; subst. reflexivity.
  - destruct (remove_first rid q) as [q0|]; [|discriminate].
    intros H. inversion H; subst. cbn [length]. rewrite (IH q0 eq_refl). reflexivity.
Qed.

Lemma remove_first_snoc rid q r :
  Forall (fun x => id x <> rid) q -> id r = rid ->
  remove_first rid (q ++ [r]) = Some q.
Proof.
  intros Hq Hr. induction Hq as [|x q Hx _ IH]; cbn [app remove_first].
  - rewrite Hr, String.eqb_refl. reflexivity.
  - apply String.eqb_neq in Hx. rewrite Hx, IH. reflexivity.
Qed.

Lemma list_eqb_refl {A} (eqb : A -> A -> bool) :
  (forall a, eqb a a = true) -> forall l, list_eqb eqb l l = true.
Proof.
  intros Hr. induction l as [|a l IH]; [reflexivity|].
  cbn [list_eqb]. rewrite Hr, IH. reflexivity.
Qed.

Lemma same_request_refl r : same_request r r = true.
Proof.
  unfold same_request. rewrite !String.eqb_refl, !Z.eqb_refl.
  assert (Hd : opt_eqb String.eqb (data r) (data r) = true)
    by (destruct (data r); [apply String.eqb_refl | reflexivity]).
  assert (Hp : opt_eqb (list_eqb (fun x y => String.eqb (fst x) (fst y)
                                            && String.eqb (snd x) (snd y)))
                 (params r) (params r) = true).
  { destruct (params r) as [l|]; [|reflexivity]. cbn [opt_eqb].
    apply list_eqb_refl. intros a. rewrite !String.eqb_refl. reflexivity. }
  rewrite Hd, Hp. reflexivity.
Qed.

(** While the status stays online, the loop of [processQueue] removes the
    requests it was given one after the other. *)
Lemma process_each_empties toProcess :
  forall s,
    currentStatus s = ONLINE ->
    requestQueue s = toProcess ->
    requestQueue (process_each home toProcess s) = []
    /\ currentStatus (process_each home toProcess s) = ONLINE
    /\ lastOnlineCheck (process_each home toProcess s) = lastOnlineCheck s.
Proof.
  induction toProcess as [|request rest IH]; intros s Hon Hq.
  - cbn [process_each]. repeat split; assumption.
  - cbn [process_each]. rewrite Hon. cbn [status_eqb negb].
    unfold removeFromQueue. rewrite Hq.
    cbn [bump requestQueue set_queue]. rewrite same_request_refl.
    cbn [remove_first id]. rewrite String.eqb_refl. cbn [snd].
    match goal with
    | |- context [process_each home rest ?x] =>
        destruct (IH x) as (H1 & H2 & H3)
    end.
    + destruct (saveQueue_keeps (queuePath (DEFAULT_CONFIG home))
                  (set_queue rest
                     (set_queue
                        ({| id := id request; method := method request;
                            path := path request; data := data request;
                            params := params request; queuedAt := queuedAt request;
                            retryCount := retryCount request + 1;
                            maxRetries := maxRetries request |} :: rest) s)))
        as (_ & K & _).
      rewrite K. exact Hon.
    + destruct (saveQueue_keeps (queuePath (DEFAULT_CONFIG home))
                  (set_queue rest
                     (set_queue
                        ({| id := id request; method := method request;
                            path := path request; data := data request;
                            params := params request; queuedAt := queuedAt request;
                            retryCount := retryCount request + 1;
                            maxRetries := maxRetries request |} :: rest) s)))
        as (K & _ & _).
      rewrite K. reflexivity.
    + repeat split; try assumption.
      rewrite H3.
      match goal with
      | |- lastOnlineCheck (saveQueue ?p ?x) = _ =>
          destruct (saveQueue_keeps p x) as (_ & _ & K)
      end.
      rewrite K. reflexivity.
Qed.

Lemma cache_get_set k v c : cache_get k (cache_set k v c) = Some v.
Proof.
  induction c as [|[k' v'] c IH]; cbn [cache_set cache_get].
  - rewrite String.eqb_refl. reflexivity.
  - destruct (String.eqb k' k) eqn:E; cbn [cache_get]; rewrite E; [reflexivity | exact IH].
Qed.

Lemma cache_get_set_other k k' v c :
  k' <> k -> cache_get k' (cache_set k v c) = cache_get k' c.
Proof.
  intros Hne. induction c as [|[k0 v0] c IH]; cbn [cache_set cache_get].
  - apply not_eq_sym in Hne. apply String.eqb_neq in Hne. rewrite Hne. reflexivity.
  - destruct (String.eqb_spec k0 k) as [E|N]; cbn [cache_get].
    + subst k0. apply not_eq_sym in Hne. apply String.eqb_neq in Hne.
      rewrite Hne. reflexivity.
    + rewrite IH. reflexivity.
Qed.

Lemma cache_get_delete k c : cache_get k (cache_delete k c) = None.
Proof.
  induction c as [|[k' v'] c IH]; cbn [cache_delete]; [reflexivity|].
  destruct (String.eqb k' k) eqn:E; [exact IH|].
  cbn [cache_get]. rewrite E. exact IH.
Qed.

Lemma cache_get_delete_other k k' c :
  k' <> k -> cache_get k' (cache_delete k c) = cache_get k' c.
Proof.
  intros Hne. induction c as [|[k0 v0] c IH]; cbn [cache_delete]; [reflexivity|].
  destruct (String.eqb_spec k0 k) as [E|N]; cbn [cache_get].
  - subst k0. apply not_eq_sym in Hne. apply String.eqb_neq in Hne.
    rewrite Hne. exact IH.
  - rewrite IH. reflexivity.
Qed.
End OfflineFacts.

(** A queue with room takes the new request at its end. *)
Lemma queueRequest_bound_aux
    (home : string) (now later : Z) (suffix m p : string) (d : option string)
    (ps : option (list (string * string))) (s : OfflineMode.State) :
  (length (OfflineMode.requestQueue s) < 100)%nat ->
  OfflineMode.requestQueue (snd (OfflineMode.queueRequest home now later suffix m p d ps s))
  = (OfflineMode.requestQueue s
     ++ [{| OfflineMode.id := "req_" ++ string_of_Z now ++ "_" ++ suffix;
            OfflineMode.method := m; OfflineMode.path := p;
            OfflineMode.data := d; OfflineMode.params := ps;
            OfflineMode.queuedAt := later; OfflineMode.retryCount := 0;
            OfflineMode.maxRetries := 5 |}])%list.
Proof.
  intros Hroom. unfold OfflineMode.queueRequest. cbn [snd].
  match goal with
  | |- context [OfflineMode.saveQueue ?pth ?x] =>
      destruct (saveQueue_keeps pth x) as (K & _ & _)
  end.
  rewrite K. cbn [OfflineMode.requestQueue OfflineMode.set_queue].
  change (OfflineMode.maxQueueSize (OfflineMode.DEFAULT_CONFIG home)) with 100%nat.
  match goal with
  | |- context [(100 <? length ?l)%nat] =>
      destruct (Nat.ltb_spec 100 (length l)) as [Hfull|_]
  end; [|reflexivity].
  rewrite length_app in Hfull. cbn in Hfull. lia.
Qed.

(** X26.  [queueRequest] puts the new request, with a retry count of 0,
    at the end of the queue and returns its id; a queue of fewer than 100
    requests grows by one, a queue of 100 or more loses its oldest request
    and keeps its length, so a queue within the limit stays within it. *)
Theorem queueRequest_bound
    (home : string) (now later : Z) (suffix m p : string) (d : option string)
    (ps : option (list (string * string))) (s : OfflineMode.State) :
  let request :=
    {| OfflineMode.id := "req_" ++ string_of_Z now ++ "_" ++ suffix;
       OfflineMode.method := m; OfflineMode.path := p;
       OfflineMode.data := d; OfflineMode.params := ps;
       OfflineMode.queuedAt := later; OfflineMode.retryCount := 0;
       OfflineMode.maxRetries := 5 |} in
  let q := OfflineMode.requestQueue s in
  let q' := OfflineMode.requestQueue
              (snd (OfflineMode.queueRequest home now later suffix m p d ps s)) in
  fst (OfflineMode.queueRequest home now later suffix m p d ps s) = OfflineMode.id request
  /\ ((length q < 100)%nat -> q' = (q ++ [request])%list)
  /\ ((100 <= length q)%nat -> q' = (tl q ++ [request])%list /\ length q' = length q)
  /\ ((length q <= 100)%nat -> (length q' <= 100)%nat).
Proof.
  intros request q q'. subst q q'.
  unfold OfflineMode.queueRequest. cbn [fst snd].
  match goal with
  | |- context [OfflineMode.saveQueue ?pth ?x] =>
      destruct (saveQueue_keeps pth x) as (K & _ & _)
  end.
  rewrite K. cbn [OfflineMode.requestQueue OfflineMode.set_queue]. clear K.
  change (OfflineMode.maxQueueSize (OfflineMode.DEFAULT_CONFIG home)) with 100%nat.
  change (OfflineMode.cfg_maxRetries (OfflineMode.DEFAULT_CONFIG home)) with 5.
  fold request.
  split; [reflexivity|].
  set (q := OfflineMode.requestQueue s). clearbody q request.
  assert (Hlen : length (q ++ [request]) = S (length q))
    by (rewrite length_app; cbn; lia).
  destruct (Nat.ltb_spec 100 (length (q ++ [request]))) as [Hfull|Hroom].
  - split; [intros; lia|]. split.
    + intros _. destruct q as [|x q0]; [cbn in Hfull; lia|].
      split; [reflexivity|]. cbn [tl app length]. rewrite length_app. cbn. lia.
    + intros Hq. destruct q as [|x q0]; [cbn in Hfull; lia|].
      cbn [tl app length] in *. rewrite length_app in *. cbn in *. lia.
  - split; [intros; reflexivity|]. split; [intros; lia|]. intros _. lia.
Qed.

Lemma queueRequest_bound_witness :
  let s := OfflineMode.initial (fun _ => None) true in
  OfflineMode.requestQueue
    (snd (OfflineMode.queueRequest "/home/rose" 1700000 1700001 "k3x9f2a" "GET" "/projects"
            None None s))
  = [{| OfflineMode.id := "req_1700000_k3x9f2a";
        OfflineMode.method := "GET"; OfflineMode.path := "/projects";
        OfflineMode.data := None; OfflineMode.params := None;
        OfflineMode.queuedAt := 1700001; OfflineMode.retryCount := 0;
        OfflineMode.maxRetries := 5 |}].
Proof.
  destruct (queueRequest_bound "/home/rose" 1700000 1700001 "k3x9f2a" "GET" "/projects"
              None None (OfflineMode.initial (fun _ => None) true))
    as (_ & H & _).
  apply H. cbn. lia.
Defined.

(** X27.  [removeFromQueue] returns false and changes nothing when no
    queued request has the id; otherwise it returns true and the queue is
    one shorter; and it undoes a [queueRequest] whose id was not yet in a
    queue of fewer than 100 requests. *)
Theorem removeFromQueue_cases
    (home : string) (rid : string) (s : OfflineMode.State) :
  (Forall (fun r => OfflineMode.id r <> rid) (OfflineMode.requestQueue s) ->
   OfflineMode.removeFromQueue home rid s = (false, s))
  /\ (Exists (fun r => OfflineMode.id r = rid) (OfflineMode.requestQueue s) ->
      fst (OfflineMode.removeFromQueue home rid s) = true
      /\ S (length (OfflineMode.requestQueue (snd (OfflineMode.removeFromQueue home rid s))))
         = length (OfflineMode.requestQueue s))
  /\ (forall now later suffix m p d ps,
        rid = "req_" ++ string_of_Z now ++ "_" ++ suffix ->
        Forall (fun r => OfflineMode.id r <> rid) (OfflineMode.requestQueue s) ->
        (length (OfflineMode.requestQueue s) < 100)%nat ->
        let s1 := snd (OfflineMode.queueRequest home now later suffix m p d ps s) in
        fst (OfflineMode.removeFromQueue home rid s1) = true
        /\ OfflineMode.requestQueue (snd (OfflineMode.removeFromQueue home rid s1))
           = OfflineMode.requestQueue s).
Proof.
  split; [|split].
  - intros Hno. unfold OfflineMode.removeFromQueue.
    apply remove_first_none in Hno. rewrite Hno. reflexivity.
  - intros Hex. unfold OfflineMode.removeFromQueue.
    destruct (OfflineMode.remove_first rid (OfflineMode.requestQueue s)) as [q'|] eqn:E.
    + cbn [fst snd]. split; [reflexivity|].
      match goal with
      | |- context [OfflineMode.saveQueue ?pth ?x] =>
          destruct (saveQueue_keeps pth x) as (K & _ & _)
      end.
      rewrite K. cbn [OfflineMode.requestQueue OfflineMode.set_queue].
      apply (remove_first_length rid). exact E.
    + exfalso. apply remove_first_none in E.
      apply Exists_exists in Hex as (r & Hin & Hr).
      rewrite Forall_forall in E. exact (E r Hin Hr).
  - intros now later suffix m p d ps Hid Hno Hroom s1.
    pose proof (queueRequest_bound_aux home now later suffix m p d ps s Hroom) as Hq.
    fold s1 in Hq.
    unfold OfflineMode.removeFromQueue. rewrite Hq.
    rewrite remove_first_snoc; [|exact Hno | cbn [OfflineMode.id]; congruence].
    cbn [fst snd]. split; [reflexivity|].
    match goal with
    | |- context [OfflineMode.saveQueue ?pth ?x] =>
        destruct (saveQueue_keeps pth x) as (K & _ & _)
    end.
    rewrite K. reflexivity.
Qed.

Lemma removeFromQueue_cases_witness :
  let s0 := OfflineMode.initial (fun _ => None) true in
  let s1 := snd (OfflineMode.queueRequest "/home/rose" 1700000 1700001 "k3x9f2a" "GET" "/projects"
                   None None s0) in
  OfflineMode.removeFromQueue "/home/rose" "req_0_zzzzzzz" s1 = (false, s1)
  /\ OfflineMode.requestQueue
       (snd (OfflineMode.removeFromQueue "/home/rose" "req_1700000_k3x9f2a" s1)) = [].
Proof.
  intros s0 s1. split.
  - destruct (removeFromQueue_cases "/home/rose" "req_0_zzzzzzz" s1) as (H & _).
    apply H. repeat constructor. cbn. discriminate.
  - destruct (removeFromQueue_cases "/home/rose" "req_1700000_k3x9f2a" s0) as (_ & _ & H).
    apply (H 1700000 1700001 "k3x9f2a" "GET" "/projects" None None eq_refl).
    + constructor.
    + cbn. lia.
Defined.

(** X28.  Setting the status it already has changes nothing and calls no
    callback.  Coming back online runs [processQueue], which (sending
    nothing) removes every queued request; [processQueue] does nothing while
    the status is not online. *)
Theorem back_online_empties_queue
    (home : string) (now : Z) (s : OfflineMode.State)
    (cbs : list OfflineMode.StatusCallback) :
  OfflineMode.setConnectionStatus home now (OfflineMode.currentStatus s) (s, cbs) = (s, cbs)
  /\ (OfflineMode.currentStatus s <> OfflineMode.ONLINE ->
      let s' := fst (OfflineMode.setConnectionStatus home now OfflineMode.ONLINE (s, [])) in
      OfflineMode.requestQueue s' = []
      /\ OfflineMode.currentStatus s' = OfflineMode.ONLINE
      /\ OfflineMode.lastOnlineCheck s' = now)
  /\ (OfflineMode.currentStatus s <> OfflineMode.ONLINE ->
      OfflineMode.processQueue home s = s)
  /\ (OfflineMode.currentStatus s = OfflineMode.ONLINE ->
      OfflineMode.requestQueue (OfflineMode.processQueue home s) = []).
Proof.
  assert (Hproc : forall st, OfflineMode.currentStatus st = OfflineMode.ONLINE ->
            OfflineMode.requestQueue (OfflineMode.processQueue home st) = []
            /\ OfflineMode.currentStatus (OfflineMode.processQueue home st) = OfflineMode.ONLINE
            /\ OfflineMode.lastOnlineCheck (OfflineMode.processQueue home st)
               = OfflineMode.lastOnlineCheck st).
  { intros st Hon. unfold OfflineMode.processQueue.
    destruct (OfflineMode.requestQueue st) as [|r q] eqn:Hq.
    - repeat split; assumption.
    - rewrite <- Hq. apply process_each_empties; [exact Hon | reflexivity]. }
  split; [|split; [|split]].
  - unfold OfflineMode.setConnectionStatus.
    destruct (OfflineMode.currentStatus s); reflexivity.
  - intros Hoff s'. subst s'. unfold OfflineMode.setConnectionStatus.
    assert (E : OfflineMode.status_eqb OfflineMode.ONLINE (OfflineMode.currentStatus s) = false)
      by (destruct (OfflineMode.currentStatus s); [congruence | reflexivity | reflexivity]).
    rewrite E. cbn [negb fold_left OfflineMode.status_eqb fst].
    destruct (Hproc (OfflineMode.set_status OfflineMode.ONLINE now s) eq_refl)
      as (H1 & H2 & H3).
    repeat split; assumption.
  - intros Hoff. unfold OfflineMode.processQueue.
    destruct (OfflineMode.requestQueue s) as [|r q]; [reflexivity|].
    cbn [OfflineMode.process_each].
    destruct (OfflineMode.currentStatus s); [congruence | reflexivity | reflexivity].
  - intros Hon. apply Hproc. exact Hon.
Qed.

Lemma back_online_empties_queue_witness :
  let s0 := OfflineMode.initial (fun _ => None) true in
  let s1 := fst (OfflineMode.setConnectionStatus "/home/rose" 5 OfflineMode.OFFLINE (s0, [])) in
  let s2 := snd (OfflineMode.queueRequest "/home/rose" 10 10 "aaaaaaa" "POST" "/audits"
                   None None s1) in
  let s3 := snd (OfflineMode.queueRequest "/home/rose" 11 11 "bbbbbbb" "GET" "/projects"
                   None None s2) in
  length (OfflineMode.requestQueue s3) = 2%nat
  /\ OfflineMode.requestQueue
       (fst (OfflineMode.setConnectionStatus "/home/rose" 20 OfflineMode.ONLINE (s3, [])))
     = [].
Proof.
  intros s0 s1 s2 s3. split; [reflexivity|].
  destruct (back_online_empties_queue "/home/rose" 20 s3 []) as (_ & H & _).
  apply H. cbn. discriminate.
Defined.

(** X29.  What [cacheForOffline] stores under a key is what
    [getOfflineCache] returns for it up to and including the millisecond
    [now + ttlMs]; after that it returns [null] and forgets the entry; the
    entries of other keys are not affected. *)
Theorem offline_cache_ttl
    (now : Z) (k d : string) (ttlMs : Z) (c : OfflineMode.Cache) :
  let c1 := OfflineMode.cacheForOffline now k d ttlMs c in
  (forall t, t <= now + ttlMs -> OfflineMode.getOfflineCache t k c1 = (Some d, c1))
  /\ (forall t, now + ttlMs < t ->
        fst (OfflineMode.getOfflineCache t k c1) = None
        /\ forall t', OfflineMode.getOfflineCache t' k
                        (snd (OfflineMode.getOfflineCache t k c1))
                      = (None, snd (OfflineMode.getOfflineCache t k c1)))
  /\ (forall k' t, k' <> k ->
        fst (OfflineMode.getOfflineCache t k' c1) = fst (OfflineMode.getOfflineCache t k' c)).
Proof.
  intros c1. subst c1. unfold OfflineMode.cacheForOffline.
  split; [|split].
  - intros t Ht. unfold OfflineMode.getOfflineCache. rewrite cache_get_set.
    cbn [OfflineMode.c_expiresAt OfflineMode.cached].
    destruct (Z.gtb_spec t (now + ttlMs)); [lia | reflexivity].
  - intros t Ht. unfold OfflineMode.getOfflineCache at 1 3 4. rewrite cache_get_set.
    cbn [OfflineMode.c_expiresAt OfflineMode.cached].
    destruct (Z.gtb_spec t (now + ttlMs)); [|lia].
    cbn [fst snd]. split; [reflexivity|].
    intros t'. unfold OfflineMode.getOfflineCache. rewrite cache_get_delete. reflexivity.
  - intros k' t Hne. unfold OfflineMode.getOfflineCache.
    rewrite cache_get_set_other by exact Hne.
    destruct (OfflineMode.cache_get k' c) as [entry|]; [|reflexivity].
    destruct (t >? OfflineMode.c_expiresAt entry); reflexivity.
Qed.

Lemma offline_cache_ttl_witness :
  let c1 := OfflineMode.cacheForOffline 1000 "projects" "[]" OfflineMode.DEFAULT_TTL [] in
  OfflineMode.getOfflineCache 3601000 "projects" c1 = (Some "[]", c1)
  /\ fst (OfflineMode.getOfflineCache 3601001 "projects" c1) = None.
Proof.
  intro c1.
  destruct (offline_cache_ttl 1000 "projects" "[]" OfflineMode.DEFAULT_TTL [])
    as (H1 & H2 & _).
  split.
  - apply H1. cbn. lia.
  - apply H2. cbn. lia.
Defined.

(** X30.  When the queue file can be written, the queue left by
    [queueRequest] is the one a fresh process gets from [initOfflineMode]
    with the default configuration; when it cannot, the files are left as
    they were.  A queue file that does not parse gives an empty queue. *)
Theorem queue_persistence
    (home : string) (now later : Z) (suffix m p : string) (d : option string)
    (ps : option (list (string * string))) (s : OfflineMode.State) :
  let s' := snd (OfflineMode.queueRequest home now later suffix m p d ps s) in
  (OfflineMode.writable s = true ->
   forall ok,
     OfflineMode.requestQueue
       (OfflineMode.initOfflineMode (OfflineMode.DEFAULT_CONFIG home)
          (OfflineMode.initial (OfflineMode.disk s') ok))
     = OfflineMode.requestQueue s')
  /\ (OfflineMode.writable s = false -> OfflineMode.disk s' = OfflineMode.disk s)
  /\ (forall cfg st,
        OfflineMode.disk st (OfflineMode.queuePath cfg) = Some OfflineMode.BadText ->
        OfflineMode.requestQueue (OfflineMode.initOfflineMode cfg st) = []).
Proof.
  intros s'. subst s'. unfold OfflineMode.queueRequest. cbn [snd].
  split; [|split].
  - intros Hw ok. unfold OfflineMode.saveQueue.
    cbn [OfflineMode.writable OfflineMode.set_queue]. rewrite Hw.
    unfold OfflineMode.initOfflineMode, OfflineMode.loadQueue.
    cbn [OfflineMode.disk OfflineMode.set_disk OfflineMode.initial].
    rewrite String.eqb_refl. reflexivity.
  - intros Hw. unfold OfflineMode.saveQueue.
    cbn [OfflineMode.writable OfflineMode.set_queue]. rewrite Hw. reflexivity.
  - intros cfg st Hbad. unfold OfflineMode.initOfflineMode, OfflineMode.loadQueue.
    rewrite Hbad. reflexivity.
Qed.

Lemma queue_persistence_witness :
  let s' := snd (OfflineMode.queueRequest "/home/rose" 1700000 1700001 "k3x9f2a" "GET" "/projects"
                   None None (OfflineMode.initial (fun _ => None) true)) in
  length (OfflineMode.requestQueue
            (OfflineMode.initOfflineMode (OfflineMode.DEFAULT_CONFIG "/home/rose")
               (OfflineMode.initial (OfflineMode.disk s') true))) = 1%nat.
Proof.
  intro s'.
  destruct (queue_persistence "/home/rose" 1700000 1700001 "k3x9f2a" "GET" "/projects"
              None None (OfflineMode.initial (fun _ => None) true)) as (H & _).
  fold s' in H. rewrite (H eq_refl true). reflexivity.
Defined.
